(** * indic_translator: request validation and response normalisation

    A shallow embedding of [src/lib/translation/inference.py] and
    [src/lib/translation/api_wrapper.py].

    - Python [str] is a list of Unicode code points.
    - Python [int] is [Z]; [dict] objects handed across the API are
      [gmap string pyval]; the language table is an insertion-ordered
      association list living in a store of dict objects.
    - The external collaborators (wall clock, tokenizer, model, file system,
      the interpreter's own [str.lower] and float formatting) are the fields
      of the [Platform] class; the code is a state-and-exception monad over
      them.  Floats are read as rationals.
    - Calls to the logger are left out, and so is [get_model_info], which
      walks the model directory. *)

From Stdlib Require Import ZArith QArith Qround List Ascii String Lia Bool.
From stdpp Require Import base option list strings pretty gmap.

Local Open Scope Z_scope.

(** ** Python strings *)

Module PyStr.

(** A code point. *)
Definition char := N.
Definition str := list char.

(** String literals of the source, as code points. *)
Definition lit (s : string) : str :=
  map N_of_ascii (list_ascii_of_string s).

(** [str.isspace] on one code point: the interpreter's whitespace table
    (ASCII 0x09-0x0D, 0x1C-0x1F, 0x20 and the Unicode separators). *)
Definition isspace (c : char) : bool :=
  ((9 <=? c) && (c <=? 13) || (28 <=? c) && (c <=? 32)
   || (c =? 133) || (c =? 160) || (c =? 5760)
   || (8192 <=? c) && (c <=? 8202)
   || (c =? 8232) || (c =? 8233) || (c =? 8239) || (c =? 8287)
   || (c =? 12288))%N.

Fixpoint lstrip (s : str) : str :=
  match s with
  | [] => []
  | c :: s' => if isspace c then lstrip s' else s
  end.

Definition rstrip (s : str) : str := rev (lstrip (rev s)).

(** [s.strip()] *)
Definition strip (s : str) : str := rstrip (lstrip s).

(** [s.split()] with no separator: the maximal runs of non-whitespace.
    [cur] is the word being read, most recent code point first. *)
Fixpoint split_from (cur : str) (s : str) : list str :=
  match s with
  | [] => match cur with [] => [] | _ => [rev cur] end
  | c :: s' =>
      if isspace c
      then match cur with
           | [] => split_from [] s'
           | _ => rev cur :: split_from [] s'
           end
      else split_from (c :: cur) s'
  end.

Definition split (s : str) : list str := split_from [] s.

(** Truth value of a string: [not s] is [is_empty s]. *)
Definition is_empty (s : str) : bool :=
  match s with [] => true | _ => false end.

Definition eqb (a b : str) : bool := bool_decide (a = b).

(** [str(n)] and [{n}] inside an f-string, for an [int]. *)
Definition of_int (n : Z) : str := lit (pretty n).

End PyStr.

Import PyStr.

(** ** The language table and the validator *)

(** A Python dict from [str] to [str], in insertion order. *)
Definition pydict := list (str * str).

(** [k in d] *)
Definition dict_contains (d : pydict) (k : str) : bool :=
  existsb (fun kv => eqb (fst kv) k) d.

(** [len(d)] *)
Definition dict_len (d : pydict) : Z := Z.of_nat (length d).

(** [TranslationInference.SUPPORTED_LANGUAGES] as written in the class body. *)
Definition SUPPORTED_LANGUAGES : pydict :=
  [ (lit "hi", lit "Hindi"); (lit "ta", lit "Tamil"); (lit "te", lit "Telugu");
    (lit "kn", lit "Kannada"); (lit "ml", lit "Malayalam");
    (lit "mr", lit "Marathi"); (lit "gu", lit "Gujarati");
    (lit "bn", lit "Bengali"); (lit "pa", lit "Punjabi"); (lit "or", lit "Odia");
    (lit "as", lit "Assamese"); (lit "ur", lit "Urdu"); (lit "sa", lit "Sanskrit");
    (lit "kok", lit "Konkani"); (lit "mni", lit "Manipuri");
    (lit "mai", lit "Maithili"); (lit "sd", lit "Sindhi");
    (lit "ks", lit "Kashmiri"); (lit "dg", lit "Dogri"); (lit "bodo", lit "Bodo");
    (lit "sat", lit "Santali"); (lit "en", lit "English") ].

(** [len(text.strip().split())] *)
Definition word_count (text : str) : Z :=
  Z.of_nat (length (split (strip text))).

Definition msg_empty_text : str := lit "Text cannot be empty".

Definition msg_too_long (max_words wc : Z) : str :=
  lit "Text exceeds maximum of " ++ of_int max_words
  ++ lit " words (got " ++ of_int wc ++ lit ")".

Definition msg_bad_source (source_lang : str) : str :=
  lit "Unsupported source language: " ++ source_lang.

Definition msg_bad_target (target_lang : str) : str :=
  lit "Unsupported target language: " ++ target_lang.

Definition msg_same_lang : str :=
  lit "Source and target languages must be different".

(** [validate_input], with [langs] the value of [self.SUPPORTED_LANGUAGES]
    at the time of the call.  The result is the pair
    [(is_valid, error_message)]. *)
Definition validate_input (langs : pydict)
    (text source_lang target_lang : str) (max_words : Z)
  : bool * option str :=
  if is_empty text || is_empty (strip text) then
    (false, Some msg_empty_text)
  else
    let wc := word_count text in
    if max_words <? wc then
      (false, Some (msg_too_long max_words wc))
    else if negb (dict_contains langs source_lang) then
      (false, Some (msg_bad_source source_lang))
    else if negb (dict_contains langs target_lang) then
      (false, Some (msg_bad_target target_lang))
    else if eqb source_lang target_lang then
      (false, Some msg_same_lang)
    else
      (true, None).

(** ** Values, exceptions and the platform *)

(** A reference to a dict object in the store. *)
Definition loc := nat.

(** The Python values that cross the API: JSON values of a request, and the
    fields of a response. *)
#[warnings="-register-all"]
Inductive pyval :=
| VNone
| VBool (b : bool)
| VInt (n : Z)
| VFloat (q : Q)
| VStr (s : str)
| VList (l : list pyval)
| VDict (r : loc).

(** A request or response dictionary, keyed by the literal field names. *)
Abbreviation dict := (gmap string pyval).

(** [type(v).__name__] *)
Definition type_name (v : pyval) : string :=
  match v with
  | VNone => "NoneType"
  | VBool _ => "bool"
  | VInt _ => "int"
  | VFloat _ => "float"
  | VStr _ => "str"
  | VList _ => "list"
  | VDict _ => "dict"
  end.

(** An instance of [Exception]; [exn_msg] is [str(e)]. *)
Record exn := Exn { exn_class : string; exn_msg : str }.

Definition AttributeError (v : pyval) (attr : string) : exn :=
  Exn "AttributeError"
      (lit "'" ++ lit (type_name v) ++ lit "' object has no attribute '"
       ++ lit attr ++ lit "'").

Definition ZeroDivisionError : exn :=
  Exn "ZeroDivisionError" (lit "float division by zero").

(** Raised by [with None:]. *)
Definition TypeError_no_context_manager : exn :=
  Exn "TypeError"
      (lit "'NoneType' object does not support the context manager protocol").

Inductive outcome (A : Type) :=
| Ok (a : A)
| Raised (e : exn).
Arguments Ok {A} a.
Arguments Raised {A} e.

(** Everything the repository consumes but does not implement.  Each
    collaborator may read and change the outside world [Env] and may raise. *)
Class Platform := {
  Env : Type;
  Tokens : Type;
  Outputs : Type;
  (** [time.time()], in seconds *)
  time_time : Env -> Q * Env;
  (** [self.tokenizer(input_text, return_tensors="pt", padding=True,
      truncation=True, max_length=512)] *)
  tokenizer_call : str -> Env -> outcome Tokens * Env;
  (** [self.model.generate( **inputs, max_length, num_beams,
      early_stopping=True)] *)
  model_generate : Tokens -> Z -> Z -> Env -> outcome Outputs * Env;
  (** [self.tokenizer.decode(outputs[0], skip_special_tokens=True)] *)
  tokenizer_decode : Outputs -> Env -> outcome str * Env;
  (** [self.model_dir.exists()] *)
  model_dir_exists : Env -> bool * Env;
  (** the two [from_pretrained] calls and [model.eval()] of [load_model] *)
  from_pretrained : Env -> outcome unit * Env;
  TRANSFORMERS_AVAILABLE : bool;
  TORCH_AVAILABLE : bool;
  (** [str.lower] *)
  str_lower : str -> str;
  (** [format(x, ".1f")] of the float [x] *)
  format_1f : Q -> str;
}.

(** What the program did to the outside world, oldest first.  [EvTranslate]
    records an entry into [translate]; the others are calls to the
    collaborators. *)
Inductive event :=
| EvTime
| EvTranslate (text source_lang target_lang : str) (max_length num_beams : Z)
| EvTokenize (input_text : str)
| EvGenerate (max_length num_beams : Z)
| EvDecode
| EvDirExists
| EvFromPretrained.

(** The calls that reach the tokenizer or the model. *)
Definition is_backend_event (e : event) : bool :=
  match e with
  | EvTokenize _ | EvGenerate _ _ | EvDecode | EvFromPretrained => true
  | _ => false
  end.

(** The class attribute [SUPPORTED_LANGUAGES] is the dict object at this
    reference. *)
Definition SUPPORTED_LANGUAGES_ref : loc := 0%nat.

Section Program.
Context `{P : Platform}.

(** The process state: the outside world, the store of dict objects, the
    references that have been handed to callers, and the two flags
    [TranslationInference._model_loaded] and
    [TranslationAPIWrapper._initialized]. *)
Record state := State {
  env : Env;
  trace : list event;
  heap : gmap loc pydict;
  exposed : gset loc;
  _model_loaded : bool;
  _initialized : bool;
}.

Definition M (A : Type) : Type := state -> outcome A * state.

Definition ret {A} (a : A) : M A := fun st => (Ok a, st).

Definition raise {A} (e : exn) : M A := fun st => (Raised e, st).

Definition bind {A B} (m : M A) (k : A -> M B) : M B :=
  fun st =>
    match m st with
    | (Ok a, st') => k a st'
    | (Raised e, st') => (Raised e, st')
    end.

(** [try: body  except Exception as e: handler e] *)
Definition try_except {A} (body : M A) (handler : exn -> M A) : M A :=
  fun st =>
    match body st with
    | (Ok a, st') => (Ok a, st')
    | (Raised e, st') => handler e st'
    end.

Definition with_env (st : state) (e : Env) (ev : event) : state :=
  State e (trace st ++ [ev]) (heap st) (exposed st)
        (_model_loaded st) (_initialized st).

(** The state once [ev] is recorded. *)
Definition after_log (ev : event) (st : state) : state :=
  with_env st (env st) ev.

Definition log (ev : event) : M unit :=
  fun st => (Ok tt, after_log ev st).

(** What [time.time()] returns in [st], and the state it leaves. *)
Definition reading (st : state) : Q := fst (time_time (env st)).

Definition after_reading (st : state) : state :=
  with_env st (snd (time_time (env st))) EvTime.

(** Lifting of the collaborators. *)
Definition now : M Q :=
  fun st => (Ok (reading st), after_reading st).

Definition tokenize (input_text : str) : M Tokens :=
  fun st => let '(r, e) := tokenizer_call input_text (env st) in
            (r, with_env st e (EvTokenize input_text)).

Definition generate (inputs : Tokens) (max_length num_beams : Z) : M Outputs :=
  fun st => let '(r, e) := model_generate inputs max_length num_beams (env st) in
            (r, with_env st e (EvGenerate max_length num_beams)).

Definition decode (outputs : Outputs) : M str :=
  fun st => let '(r, e) := tokenizer_decode outputs (env st) in
            (r, with_env st e EvDecode).

Definition dir_exists : M bool :=
  fun st => let '(b, e) := model_dir_exists (env st) in
            (Ok b, with_env st e EvDirExists).

Definition load_pretrained : M unit :=
  fun st => let '(r, e) := from_pretrained (env st) in
            (r, with_env st e EvFromPretrained).

Definition get_model_loaded : M bool := fun st => (Ok (_model_loaded st), st).

Definition set_model_loaded (b : bool) : M unit :=
  fun st => (Ok tt, State (env st) (trace st) (heap st) (exposed st)
                          b (_initialized st)).

Definition get_initialized : M bool := fun st => (Ok (_initialized st), st).

Definition set_initialized (b : bool) : M unit :=
  fun st => (Ok tt, State (env st) (trace st) (heap st) (exposed st)
                          (_model_loaded st) b).

(** The value of [self.SUPPORTED_LANGUAGES]. *)
Definition registry (st : state) : pydict :=
  heap st !!! SUPPORTED_LANGUAGES_ref.

Definition get_registry : M pydict := fun st => (Ok (registry st), st).

End Program.

Arguments state {P}.
Arguments State {P}.
Arguments M {P} A.

Declare Scope py_scope.
Delimit Scope py_scope with py.
Notation "x <- m ;; k" := (bind m (fun x => k))
  (at level 63, m at next level, right associativity) : py_scope.
Notation "m ;;; k" := (bind m (fun _ => k))
  (at level 63, right associativity) : py_scope.

(** ** inference.py *)

(** [int(x)] on a float: truncation towards zero. *)
Definition py_int (x : Q) : Z := Z.quot (Qnum x) (Z.pos (Qden x)).

(** [int((t1 - t0) * 1000)] *)
Definition elapsed_ms (t0 t1 : Q) : Z := py_int ((t1 - t0) * 1000)%Q.

(** [error_msg] as a dict value. *)
Definition of_optional (m : option str) : pyval :=
  match m with Some s => VStr s | None => VNone end.

(** The failure dictionary of [translate]. *)
Definition failure (error : pyval) (duration_ms : Z) : dict :=
  {[ "success" := VBool false; "error" := error;
     "duration_ms" := VInt duration_ms ]}.

Section Inference.
Context `{P : Platform}.
Local Open Scope py_scope.

(** [a / b] on floats. *)
Definition truediv (a b : Q) : M Q :=
  if Qeq_bool b 0 then raise ZeroDivisionError else ret (a / b)%Q.

(** [torch.no_grad() if TORCH_AVAILABLE else None], entered by [with]. *)
Definition enter_no_grad : M unit :=
  if TORCH_AVAILABLE then ret tt else raise TypeError_no_context_manager.

(** [load_model] *)
Definition load_model : M bool :=
  loaded <- get_model_loaded ;;
  if loaded then ret true
  else if negb (TRANSFORMERS_AVAILABLE && TORCH_AVAILABLE) then ret false
  else
    found <- dir_exists ;;
    if negb found then ret false
    else
      try_except
        (_load_start_time <- now ;;
         load_pretrained ;;;
         t <- now ;;
         set_model_loaded true ;;;
         ret true)
        (fun e => set_model_loaded false ;;; ret false).

(** Lines 198-226 of [translate]: what is asked of the tokenizer and the
    model.  [self.device] is always ["cpu"], so the inputs are never
    moved. *)
Definition run_backend (text source_lang : str) (max_length num_beams : Z)
  : M str :=
  let input_text := source_lang ++ lit ": " ++ text in
  inputs <- tokenize input_text ;;
  enter_no_grad ;;;
  outputs <- generate inputs max_length num_beams ;;
  decode outputs.

(** [translate] *)
Definition translate (text source_lang target_lang : str)
    (max_length num_beams : Z) : M dict :=
  log (EvTranslate text source_lang target_lang max_length num_beams) ;;;
  start_time <- now ;;
  langs <- get_registry ;;
  let '(is_valid, error_msg) :=
    validate_input langs text source_lang target_lang 500 in
  if negb is_valid then
    t <- now ;;
    ret (failure (of_optional error_msg) (elapsed_ms start_time t))
  else
    loaded <- get_model_loaded ;;
    if negb loaded then
      t <- now ;;
      ret (failure (VStr (lit "Model not loaded. Call load_model() first."))
                   (elapsed_ms start_time t))
    else
      try_except
        (translated_text <- run_backend text source_lang max_length num_beams ;;
         t <- now ;;
         let duration_ms := elapsed_ms start_time t in
         let words := Z.of_nat (length (split text)) in
         seconds <- truediv (inject_Z duration_ms) 1000 ;;
         speed <- truediv (inject_Z words) seconds ;;
         ret ({[ "success" := VBool true;
                 "translated_text" := VStr translated_text;
                 "source_lang" := VStr source_lang;
                 "target_lang" := VStr target_lang;
                 "duration_ms" := VInt duration_ms;
                 "word_count" := VInt words;
                 "inference_speed" :=
                   VStr (format_1f speed ++ lit " words/sec") ]} : dict))
        (fun e =>
           t <- now ;;
           ret (failure (VStr (exn_msg e)) (elapsed_ms start_time t))).

(** The loop of [batch_translate]; [results] is the list built so far. *)
Fixpoint batch_loop (texts : list str) (source_lang target_lang : str)
    (results : list dict) : M (list dict) :=
  match texts with
  | [] => ret results
  | text :: rest =>
      result <- translate text source_lang target_lang 256 4 ;;
      batch_loop rest source_lang target_lang (results ++ [result])
  end.

(** Translating [texts] one after the other from [st]: the results, in the
    order of the texts, and the final state. *)
Inductive batch_run (source_lang target_lang : str)
  : list str -> state -> list dict -> state -> Prop :=
| batch_run_nil st : batch_run source_lang target_lang [] st [] st
| batch_run_cons text rest st result st1 results st2 :
    translate text source_lang target_lang 256 4 st = (Ok result, st1) ->
    batch_run source_lang target_lang rest st1 results st2 ->
    batch_run source_lang target_lang (text :: rest) st (result :: results) st2.

(** [batch_translate] *)
Definition batch_translate (texts : list str) (source_lang target_lang : str)
  : M (list dict) :=
  batch_loop texts source_lang target_lang [].

(** [d.copy()]: a new dict object with the same items.  The reference is
    returned to the caller. *)
Definition dict_copy (r : loc) : M loc :=
  fun st =>
    let r' := fresh (dom (heap st)) in
    (Ok r', State (env st) (trace st) (<[r' := heap st !!! r]> (heap st))
                  ({[r']} ∪ exposed st)
                  (_model_loaded st) (_initialized st)).

(** [get_supported_languages] *)
Definition get_supported_languages : M loc :=
  dict_copy SUPPORTED_LANGUAGES_ref.

End Inference.

(** ** api_wrapper.py *)

(** [d.get(k, default)] *)
Definition dict_get (d : dict) (k : string) (default : pyval) : pyval :=
  match d !! k with Some v => v | None => default end.

(** The failure dictionary of the envelope: no timing field. *)
Definition envelope_error (error : str) : dict :=
  {[ "success" := VBool false; "error" := VStr error ]}.

Definition msg_text_required : str :=
  lit "Text parameter is required and cannot be empty".

Definition msg_langs_required : str :=
  lit "source_lang and target_lang parameters are required".

Definition msg_init_failed : str :=
  lit "Failed to initialize translation model".

(** [d[k] = v] on a dict object: an existing key keeps its position. *)
Definition dict_setitem (d : pydict) (k v : str) : pydict :=
  if dict_contains d k
  then map (fun kv => if eqb (fst kv) k then (fst kv, v) else kv) d
  else d ++ [(k, v)].

(** [d.pop(k, None)] *)
Definition dict_delitem (d : pydict) (k : str) : pydict :=
  filter (fun kv => fst kv <> k) d.

Section Wrapper.
Context `{P : Platform}.
Local Open Scope py_scope.

(** [v.strip()] for a value of any type. *)
Definition call_strip (v : pyval) : M str :=
  match v with
  | VStr s => ret (strip s)
  | _ => raise (AttributeError v "strip")
  end.

(** [v.lower()] for a value of any type. *)
Definition call_lower (v : pyval) : M str :=
  match v with
  | VStr s => ret (str_lower s)
  | _ => raise (AttributeError v "lower")
  end.

(** [TranslationAPIWrapper.initialize] *)
Definition initialize : M bool :=
  done <- get_initialized ;;
  if done then ret true
  else
    loaded <- load_model ;;
    if loaded then set_initialized true ;;; ret true
    else ret false.

(** [handle_translate_request] *)
Definition handle_translate_request (request_data : dict) : M dict :=
  try_except
    (text <- call_strip (dict_get request_data "text" (VStr [])) ;;
     source_lang <- call_lower (dict_get request_data "source_lang" (VStr [])) ;;
     target_lang <- call_lower (dict_get request_data "target_lang" (VStr [])) ;;
     if is_empty text then ret (envelope_error msg_text_required)
     else if is_empty source_lang || is_empty target_lang
     then ret (envelope_error msg_langs_required)
     else
       done <- get_initialized ;;
       ready <- (if negb done then initialize else ret true) ;;
       if negb ready then ret (envelope_error msg_init_failed)
       else translate text source_lang target_lang 256 4)
    (fun e => ret (envelope_error (exn_msg e))).

(** [len(d)] for the dict object at [r]. *)
Definition len_at (r : loc) : M Z :=
  fun st => (Ok (dict_len (heap st !!! r)), st).

(** [handle_languages_request] *)
Definition handle_languages_request : M dict :=
  try_except
    (languages <- get_supported_languages ;;
     count <- len_at languages ;;
     ret ({[ "success" := VBool true; "languages" := VDict languages;
             "count" := VInt count ]} : dict))
    (fun e => ret (envelope_error (exn_msg e))).

(** ** Callers *)

(** A caller can change a dict object only through a reference it was
    given. *)
Definition caller_update (r : loc) (f : pydict -> pydict) (st : state)
  : state :=
  if bool_decide (r ∈ exposed st)
  then State (env st) (trace st) (<[r := f (heap st !!! r)]> (heap st))
             (exposed st) (_model_loaded st) (_initialized st)
  else st.

(** What a client of the two classes can do. *)
Inductive call :=
| CLoadModel
| CTranslate (text source_lang target_lang : str) (max_length num_beams : Z)
| CBatchTranslate (texts : list str) (source_lang target_lang : str)
| CGetSupportedLanguages
| CInitialize
| CHandleTranslate (request_data : dict)
| CHandleLanguages
| CSetItem (r : loc) (k v : str)
| CDelItem (r : loc) (k : str)
| CClear (r : loc).

Definition perform (c : call) (st : state) : state :=
  match c with
  | CLoadModel => snd (load_model st)
  | CTranslate text s t ml nb => snd (translate text s t ml nb st)
  | CBatchTranslate texts s t => snd (batch_translate texts s t st)
  | CGetSupportedLanguages => snd (get_supported_languages st)
  | CInitialize => snd (initialize st)
  | CHandleTranslate request_data =>
      snd (handle_translate_request request_data st)
  | CHandleLanguages => snd (handle_languages_request st)
  | CSetItem r k v => caller_update r (fun d => dict_setitem d k v) st
  | CDelItem r k => caller_update r (fun d => dict_delitem d k) st
  | CClear r => caller_update r (fun _ => []) st
  end.

(** The state after the module is imported and both singletons are
    created. *)
Definition initial (e : Env) : state :=
  State e [] {[ SUPPORTED_LANGUAGES_ref := SUPPORTED_LANGUAGES ]} ∅
        false false.

(** The class attribute still holds the table of the class body, and no
    caller holds a reference to it. *)
Definition registry_intact (st : state) : Prop :=
  heap st !! SUPPORTED_LANGUAGES_ref = Some SUPPORTED_LANGUAGES
  /\ SUPPORTED_LANGUAGES_ref ∉ exposed st.

(** No fault of the tokenizer or the model carries the message [msg]. *)
Definition backend_never_says (msg : str) : Prop :=
  (forall s w e w', tokenizer_call s w = (Raised e, w') -> exn_msg e <> msg)
  /\ (forall i ml nb w e w',
        model_generate i ml nb w = (Raised e, w') -> exn_msg e <> msg)
  /\ (forall o w e w', tokenizer_decode o w = (Raised e, w') -> exn_msg e <> msg).

Inductive reachable : state -> Prop :=
| reachable_initial e : reachable (initial e)
| reachable_perform c st : reachable st -> reachable (perform c st).

End Wrapper.

(** ** A scripted platform for running the code *)

Module Stub.

(** The clock readings still to come, and the fault the tokenizer raises,
    if any. *)
Record world := World { readings : list Q; tokenizer_fault : option exn }.

Definition time (e : world) : Q * world :=
  match readings e with
  | [] => (0%Q, e)
  | t :: l => (t, World l (tokenizer_fault e))
  end.

Definition lower_char (c : char) : char :=
  if ((65 <=? c) && (c <=? 90))%N then (c + 32)%N else c.

(** [str.lower] on ASCII text. *)
Definition ascii_lower (s : str) : str := map lower_char s.

(** One decimal, for non-negative values that need no rounding. *)
Definition one_decimal (x : Q) : str :=
  of_int (Qfloor x) ++ lit "." ++ of_int (Qfloor (x * 10) mod 10).

Definition platform : Platform := {|
  Env := world;
  Tokens := str;
  Outputs := str;
  time_time := time;
  tokenizer_call s e :=
    (match tokenizer_fault e with Some x => Raised x | None => Ok s end, e);
  model_generate inputs _ _ e := (Ok inputs, e);
  tokenizer_decode outputs e := (Ok outputs, e);
  model_dir_exists e := (true, e);
  from_pretrained e := (Ok tt, e);
  TRANSFORMERS_AVAILABLE := true;
  TORCH_AVAILABLE := true;
  str_lower := ascii_lower;
  format_1f := one_decimal;
|}.

(** A state with the model loaded or not. *)
Definition start (loaded : bool) (e : world) : @state platform :=
  @State platform e [] {[ SUPPORTED_LANGUAGES_ref := SUPPORTED_LANGUAGES ]} ∅
         loaded loaded.

(** A request with a blank text, an upper-case source code and no target
    code. *)
Definition blank_request : dict :=
  {[ "text" := VStr (lit "   "); "source_lang" := VStr (lit "EN") ]}.

(** A platform on which the libraries may be missing, the model directory
    absent, or the loading of the model faulty. *)
Definition custom (transformers torch directory : bool)
    (load_fault : option exn) : Platform := {|
  Env := world;
  Tokens := str;
  Outputs := str;
  time_time := time;
  tokenizer_call s e :=
    (match tokenizer_fault e with Some x => Raised x | None => Ok s end, e);
  model_generate inputs _ _ e := (Ok inputs, e);
  tokenizer_decode outputs e := (Ok outputs, e);
  model_dir_exists e := (directory, e);
  from_pretrained e :=
    (match load_fault with Some x => Raised x | None => Ok tt end, e);
  TRANSFORMERS_AVAILABLE := transformers;
  TORCH_AVAILABLE := torch;
  str_lower := ascii_lower;
  format_1f := one_decimal;
|}.


(** A well-formed request, with an upper-case source code. *)
Definition hello_request : dict :=
  {[ "text" := VStr (lit " hello world ");
     "source_lang" := VStr (lit "EN");
     "target_lang" := VStr (lit "hi") ]}.

(** The tokenizer runs out of memory. *)
Definition out_of_memory : exn := Exn "RuntimeError" (lit "out of memory").

End Stub.

(** ** The Flask application *)

(** The truth value of a Python value used as a condition; a dict object is
    true when it has items. *)
Definition truthy (h : gmap loc pydict) (v : pyval) : bool :=
  match v with
  | VNone => false
  | VBool b => b
  | VInt n => negb (n =? 0)
  | VFloat q => negb (Qeq_bool q 0)
  | VStr s => negb (is_empty s)
  | VList l => match l with [] => false | _ => true end
  | VDict r => negb (dict_len (h !!! r) =? 0)
  end.

Section Routes.
Context `{P : Platform}.
Local Open Scope py_scope.

(** The [before_request] hook of [create_flask_app]. *)
Definition before_request : M unit :=
  done <- get_initialized ;;
  if negb done then initialize ;;; ret tt else ret tt.

(** [result.get('success')] as the condition of the status code. *)
Definition succeeded (result : dict) : M bool :=
  fun st => (Ok (truthy (heap st) (dict_get result "success" VNone)), st).

(** The view function of [POST /api/translate]: the answer and its status
    code.  [data] is the JSON object that [request.get_json()] returned, and
    [jsonify] hands the dictionary on as it is. *)
Definition api_translate (data : dict) : M (dict * Z) :=
  try_except
    (result <- handle_translate_request data ;;
     success <- succeeded result ;;
     ret (result, if success then 200 else 400))
    (fun e => ret (envelope_error (exn_msg e), 500)).

End Routes.

(** ** get_model_info *)

Section ModelInfo.
Context `{P : Platform}.
Local Open Scope py_scope.

(** [str(self.model_dir)] *)
Variable model_dir : str.

(** The sum of [st_size] over the files found under the model directory;
    walking the directory may raise. *)
Variable directory_size : Env -> outcome Z * Env.

(** [round(x, 2)] *)
Variable round_2 : Q -> Q.

(** The walk through the directory; it leaves no record in the trace. *)
Definition walk_size : M Z :=
  fun st => let '(r, e) := directory_size (env st) in
            (r, State e (trace st) (heap st) (exposed st)
                      (_model_loaded st) (_initialized st)).

(** [list(d.keys())] *)
Definition keys_list (d : pydict) : pyval :=
  VList (map (fun kv => VStr (fst kv)) d).

(** [TranslationInference.get_model_info]; [self.device] is always
    ["cpu"]. *)
Definition get_model_info : M dict :=
  loaded <- get_model_loaded ;;
  langs <- get_registry ;;
  let info : dict :=
    {[ "model_dir" := VStr model_dir;
       "model_loaded" := VBool loaded;
       "device" := VStr (lit "cpu");
       "supported_languages" := VInt (dict_len langs);
       "languages" := keys_list langs ]} in
  found <- dir_exists ;;
  if found then
    try_except
      (total_size <- walk_size ;;
       ret (<["total_size_gb" :=
                VFloat (round_2 (inject_Z total_size / inject_Z (1024 ^ 3)))]>
              info))
      (fun e => ret info)
  else ret info.

End ModelInfo.

(** ** model_manager.py *)

Module ModelManager.

(** Whether [self.model] and [self.tokenizer] are set. *)
Record t := Manager { model : bool; tokenizer : bool }.

Section Methods.
Context `{P : Platform}.
Local Open Scope py_scope.

(** The [try] block of [ModelManager.translate]: the same calls as in the
    inference wrapper, with four beams and outside [torch.no_grad()]. *)
Definition run_backend (text source_lang : str) (max_length : Z) : M str :=
  let input_text := source_lang ++ lit ": " ++ text in
  inputs <- tokenize input_text ;;
  outputs <- generate inputs max_length 4 ;;
  decode outputs.

(** [ModelManager.translate], with [langs] the value of
    [self.SUPPORTED_LANGUAGES]; the result is the translated text or
    [None]. *)
Definition translate (self : t) (langs : pydict)
    (text source_lang target_lang : str) (max_length : Z) : M (option str) :=
  if negb (model self) || negb (tokenizer self) then ret None
  else if negb (dict_contains langs source_lang) then ret None
  else if negb (dict_contains langs target_lang) then ret None
  else
    try_except
      (translated <- run_backend text source_lang max_length ;;
       ret (Some translated))
      (fun e => ret None).

(** [ModelManager.batch_translate]: the list comprehension, in order. *)
Fixpoint batch_translate (self : t) (langs : pydict) (texts : list str)
    (source_lang target_lang : str) : M (list (option str)) :=
  match texts with
  | [] => ret []
  | text :: rest =>
      first <- translate self langs text source_lang target_lang 256 ;;
      others <- batch_translate self langs rest source_lang target_lang ;;
      ret (first :: others)
  end.

(** Translating [texts] one after the other from [st] with
    [ModelManager.translate]: the entries, in the order of the texts, and
    the final state. *)
Inductive batch_run (self : t) (langs : pydict) (source_lang target_lang : str)
  : list str -> state -> list (option str) -> state -> Prop :=
| run_nil st : batch_run self langs source_lang target_lang [] st [] st
| run_cons text rest st first st1 others st2 :
    translate self langs text source_lang target_lang 256 st
    = (Ok first, st1) ->
    batch_run self langs source_lang target_lang rest st1 others st2 ->
    batch_run self langs source_lang target_lang (text :: rest) st
              (first :: others) st2.

End Methods.

End ModelManager.

(** ** Properties of states *)

Section Relations.
Context `{P : Platform}.

(** Two states that differ at most in what was recorded of the past and in
    which references callers hold. *)
Definition agree (st st' : state) : Prop :=
  env st = env st' /\ heap st = heap st'
  /\ _model_loaded st = _model_loaded st'
  /\ _initialized st = _initialized st'.

(** [m] does the same from states that agree. *)
Definition respects {A} (m : M A) : Prop :=
  forall st st',
    agree st st' ->
    fst (m st) = fst (m st') /\ agree (snd (m st)) (snd (m st')).

(** An initialised wrapper has a loaded model. *)
Definition coherent (st : state) : Prop :=
  _initialized st = true -> _model_loaded st = true.

(** From [st] to [st'] nothing was undone: a loaded model is still loaded,
    an initialised wrapper still initialised, and coherence is kept. *)
Definition advances (st st' : state) : Prop :=
  (_model_loaded st = true -> _model_loaded st' = true)
  /\ (_initialized st = true -> _initialized st' = true)
  /\ (coherent st -> coherent st').

(** [m] changes nothing of the two objects: flags, dict store and exposed
    references are as before. *)
Definition keeps_objects {A} (m : M A) : Prop :=
  forall st,
    _model_loaded (snd (m st)) = _model_loaded st
    /\ _initialized (snd (m st)) = _initialized st
    /\ heap (snd (m st)) = heap st
    /\ exposed (snd (m st)) = exposed st.

End Relations.

(** ** Properties of computations *)

Section Frames.
Context `{P : Platform}.

(** [m] leaves the store of dict objects and the exposed references as they
    are. *)
Definition keeps_store {A} (m : M A) : Prop :=
  forall st, heap (snd (m st)) = heap st /\ exposed (snd (m st)) = exposed st.

(** [m] returns: it never raises. *)
Definition returns {A} (m : M A) : Prop :=
  forall st, exists a st', m st = (Ok a, st').

End Frames.

(** ** The validator as the specification words it *)

(** Rules 1 to 5 of the validator, in the order of the specification: each is
    the condition under which the rule fails and the error it reports. *)
Definition validation_rules (langs : pydict)
    (text source_lang target_lang : str) (max_words : Z)
  : list (bool * str) :=
  [ (is_empty (strip text), lit "Text cannot be empty");
    (max_words <? word_count text,
     lit "Text exceeds maximum of " ++ of_int max_words
     ++ lit " words (got " ++ of_int (word_count text) ++ lit ")");
    (negb (dict_contains langs source_lang),
     lit "Unsupported source language: " ++ source_lang);
    (negb (dict_contains langs target_lang),
     lit "Unsupported target language: " ++ target_lang);
    (eqb source_lang target_lang,
     lit "Source and target languages must be different") ].

(** First failing rule wins; no failing rule is a valid input. *)
Fixpoint first_failure (rules : list (bool * str)) : bool * option str :=
  match rules with
  | [] => (true, None)
  | (fails, error) :: rest =>
      if fails then (false, Some error) else first_failure rest
  end.

(** ** Strings *)

Lemma lstrip_whitespace (s : str) :
  forallb isspace s = true -> lstrip s = [].
Proof.
  induction s as [|c s IH]; simpl; [reflexivity|].
  intros H. apply andb_prop in H as [Hc Hs].
  rewrite Hc. auto.
Qed.

Lemma strip_whitespace (s : str) :
  forallb isspace s = true -> strip s = [].
Proof.
  intros H. unfold strip, rstrip.
  rewrite (lstrip_whitespace s H). reflexivity.
Qed.

Lemma lstrip_nil_whitespace (s : str) :
  lstrip s = [] -> forallb isspace s = true.
Proof.
  induction s as [|c s IH]; simpl; [reflexivity|].
  destruct (isspace c); [auto | discriminate].
Qed.

Lemma lstrip_head (s : str) c r :
  lstrip s = c :: r -> isspace c = false.
Proof.
  induction s as [|a s IH]; simpl; [discriminate|].
  destruct (isspace a) eqn:Ha; [exact IH|].
  intros [= <- <-]. exact Ha.
Qed.

(** A string strips to nothing exactly when it is all whitespace. *)
Lemma strip_nil_iff (s : str) :
  strip s = [] <-> forallb isspace s = true.
Proof.
  split; [|apply strip_whitespace].
  unfold strip, rstrip. intros H.
  apply lstrip_nil_whitespace.
  assert (H1 : lstrip (rev (lstrip s)) = []).
  { destruct (lstrip (rev (lstrip s))) as [|a l]; [reflexivity|].
    simpl in H. apply app_eq_nil in H as [_ H]. discriminate. }
  apply lstrip_nil_whitespace in H1.
  destruct (lstrip s) as [|c r] eqn:E; [reflexivity|].
  apply lstrip_head in E.
  rewrite forallb_forall in H1.
  assert (Hc : isspace c = true).
  { apply H1. apply in_rev. rewrite rev_involutive. left. reflexivity. }
  congruence.
Qed.

Lemma is_empty_true (s : str) : is_empty s = true <-> s = [].
Proof. destruct s; simpl; split; congruence. Qed.

Lemma is_empty_false (s : str) : is_empty s = false <-> s <> [].
Proof. destruct s; simpl; split; congruence. Qed.

(** [not text or not text.strip()] is decided by the stripped text alone. *)
Lemma empty_text_test (text : str) :
  is_empty text || is_empty (strip text) = is_empty (strip text).
Proof. destruct text; reflexivity. Qed.

(** A text with at least one word does not strip to nothing. *)
Lemma word_count_pos_strip (text : str) :
  0 < word_count text -> strip text <> [].
Proof.
  unfold word_count. intros H E. rewrite E in H. simpl in H. lia.
Qed.

(** ** The validator *)

Example validate_empty_text :
  validate_input SUPPORTED_LANGUAGES (lit "") (lit "en") (lit "hi") 500
  = (false, Some (lit "Text cannot be empty")).
Proof. reflexivity. Qed.

Example validate_unsupported_source :
  validate_input SUPPORTED_LANGUAGES (lit "hello") (lit "xx") (lit "hi") 500
  = (false, Some (lit "Unsupported source language: xx")).
Proof. vm_compute. reflexivity. Qed.

Example validate_same_language :
  validate_input SUPPORTED_LANGUAGES (lit "hello") (lit "en") (lit "en") 500
  = (false, Some (lit "Source and target languages must be different")).
Proof. vm_compute. reflexivity. Qed.

Example validate_accepts :
  validate_input SUPPORTED_LANGUAGES (lit "Good morning") (lit "en") (lit "ta") 500
  = (true, None).
Proof. vm_compute. reflexivity. Qed.

(** With a negative limit a blank text has more words than allowed, and is
    still refused as empty: the first rule answers. *)
Example validate_negative_limit :
  validate_input SUPPORTED_LANGUAGES (lit "  ") (lit "en") (lit "hi") (-1)
  = (false, Some (lit "Text cannot be empty")).
Proof. reflexivity. Qed.

Lemma validate_input_rules langs text source_lang target_lang max_words :
  validate_input langs text source_lang target_lang max_words
  = first_failure
      (validation_rules langs text source_lang target_lang max_words).
Proof.
  unfold validate_input, validation_rules, first_failure.
  rewrite empty_text_test.
  destruct (is_empty (strip text)); [reflexivity|].
  destruct (max_words <? word_count text); [reflexivity|].
  destruct (negb (dict_contains langs source_lang)); [reflexivity|].
  destruct (negb (dict_contains langs target_lang)); [reflexivity|].
  destruct (eqb source_lang target_lang); reflexivity.
Qed.

Lemma first_failure_none (rules : list (bool * str)) :
  Forall (fun r => fst r = false) rules -> first_failure rules = (true, None).
Proof.
  induction 1 as [|[fails error] rest Hr _ IH]; simpl; [reflexivity|].
  simpl in Hr. rewrite Hr. exact IH.
Qed.

(** An input is refused with a message, and accepted without one. *)
Lemma validate_input_shape langs text source_lang target_lang max_words :
  (exists error,
     validate_input langs text source_lang target_lang max_words
     = (false, Some error))
  \/ validate_input langs text source_lang target_lang max_words = (true, None).
Proof.
  unfold validate_input.
  repeat match goal with
         | |- context [if ?b then _ else _] => destruct b
         end; eauto.
Qed.

(** C1: [validate_input] checks the five rules in the order empty text, word
    count, unsupported source, unsupported target, same language, and the
    first rule that fails decides the message; a text that is empty or all
    whitespace is refused with "Text cannot be empty" whatever the language
    codes (and the limit) are; when no rule fails the result is
    [(True, None)]. *)
Theorem validate_input_first_failing_rule
    langs text source_lang target_lang max_words :
  validate_input langs text source_lang target_lang max_words
  = first_failure
      (validation_rules langs text source_lang target_lang max_words)
  /\ (forall src tgt limit,
        forallb isspace text = true ->
        validate_input langs text src tgt limit
        = (false, Some (lit "Text cannot be empty")))
  /\ (Forall (fun rule => fst rule = false)
             (validation_rules langs text source_lang target_lang max_words) ->
      validate_input langs text source_lang target_lang max_words
      = (true, None)).
Proof.
  split; [apply validate_input_rules|]. split.
  - intros src tgt limit Hws. unfold validate_input.
    rewrite empty_text_test, (strip_whitespace text Hws). reflexivity.
  - intros Hall. rewrite validate_input_rules. now apply first_failure_none.
Qed.

(** C8: when the word count of the trimmed text exceeds [max_words], the
    validator reports "Text exceeds maximum of {max_words} words (got
    {word_count})" with the limit and the observed count written in
    decimal.  This holds for every limit that is not negative, and for a
    negative one as soon as the text is not blank. *)
Theorem validate_input_too_many_words
    langs text source_lang target_lang max_words :
  0 <= max_words \/ strip text <> [] ->
  max_words < word_count text ->
  validate_input langs text source_lang target_lang max_words
  = (false,
     Some (lit "Text exceeds maximum of " ++ of_int max_words
           ++ lit " words (got " ++ of_int (word_count text) ++ lit ")")).
Proof.
  intros Hlimit Hcount. unfold validate_input.
  rewrite empty_text_test.
  assert (Hne : strip text <> []).
  { destruct Hlimit as [Hlimit|Hne]; [|exact Hne].
    apply word_count_pos_strip. lia. }
  apply is_empty_false in Hne. rewrite Hne.
  apply Z.ltb_lt in Hcount. rewrite Hcount. reflexivity.
Qed.

Lemma validate_input_too_many_words_witness :
  0 <= 2
  /\ 2 < word_count (lit " a  b c ")
  /\ validate_input SUPPORTED_LANGUAGES (lit " a  b c ") (lit "en") (lit "hi") 2
     = (false, Some (lit "Text exceeds maximum of 2 words (got 3)")).
Proof.
  assert (Hlimit : 0 <= 2) by lia.
  split; [exact Hlimit|]. split; [reflexivity|].
  exact (validate_input_too_many_words
           SUPPORTED_LANGUAGES (lit " a  b c ") (lit "en") (lit "hi") 2
           (or_introl Hlimit) eq_refl).
Defined.

(** ** Timing *)

Lemma py_int_nonneg (x : Q) : (0 <= x)%Q -> 0 <= py_int x.
Proof.
  unfold Qle, py_int. destruct x as [n d]. simpl. intros H.
  apply Z.quot_pos; lia.
Qed.

(** A clock that did not go backwards gives a non-negative duration. *)
Lemma elapsed_ms_nonneg (t0 t1 : Q) : (t0 <= t1)%Q -> 0 <= elapsed_ms t0 t1.
Proof.
  intros H. unfold elapsed_ms. apply py_int_nonneg.
  apply Qmult_le_0_compat; [|discriminate].
  apply (Qplus_le_l _ _ t0). ring_simplify. exact H.
Qed.


(** ** translate *)

Section TranslateFacts.
Context `{P : Platform}.

Lemma registry_after_log ev (st : state) : registry (after_log ev st) = registry st.
Proof. reflexivity. Qed.

Lemma registry_after_reading (st : state) : registry (after_reading st) = registry st.
Proof. reflexivity. Qed.

(** The first exit of [translate]: the input is refused. *)
Lemma translate_invalid
    text source_lang target_lang max_length num_beams (st : state) msg :
  validate_input (registry st) text source_lang target_lang 500
  = (false, Some msg) ->
  let st0 := after_log
               (EvTranslate text source_lang target_lang max_length num_beams)
               st in
  let st1 := after_reading st0 in
  translate text source_lang target_lang max_length num_beams st
  = (Ok (failure (VStr msg) (elapsed_ms (reading st0) (reading st1))),
     after_reading st1).
Proof.
  intros Hv st0 st1.
  unfold translate, bind, log, now, get_registry, ret.
  rewrite registry_after_reading, registry_after_log, Hv.
  reflexivity.
Qed.

(** The second exit: the input is valid and the model is not loaded. *)
Lemma translate_not_loaded
    text source_lang target_lang max_length num_beams (st : state) :
  validate_input (registry st) text source_lang target_lang 500
  = (true, None) ->
  _model_loaded st = false ->
  let st0 := after_log
               (EvTranslate text source_lang target_lang max_length num_beams)
               st in
  let st1 := after_reading st0 in
  translate text source_lang target_lang max_length num_beams st
  = (Ok (failure (VStr (lit "Model not loaded. Call load_model() first."))
                 (elapsed_ms (reading st0) (reading st1))),
     after_reading st1).
Proof.
  intros Hv Hloaded st0 st1.
  unfold translate, bind, log, now, get_registry, get_model_loaded, ret.
  rewrite registry_after_reading, registry_after_log, Hv.
  simpl. rewrite Hloaded. reflexivity.
Qed.

(** C4, as amended: when validation fails, [translate] answers
    [success: False] with the validator's message and an integer duration;
    the only things it did are to read the clock twice, so neither the
    tokenizer nor the model was called.  The duration is not negative
    whenever the clock did not go backwards between the two readings; the
    code reads the wall clock, which may (see
    [translate_duration_can_be_negative]). *)
Theorem translate_validation_failure
    text source_lang target_lang max_length num_beams (st : state) error :
  validate_input (registry st) text source_lang target_lang 500
  = (false, error) ->
  let st0 := after_log
               (EvTranslate text source_lang target_lang max_length num_beams)
               st in
  let st1 := after_reading st0 in
  let duration_ms := elapsed_ms (reading st0) (reading st1) in
  exists msg,
    error = Some msg
    /\ translate text source_lang target_lang max_length num_beams st
       = (Ok {[ "success" := VBool false; "error" := VStr msg;
                "duration_ms" := VInt duration_ms ]},
          after_reading st1)
    /\ ((reading st0 <= reading st1)%Q -> 0 <= duration_ms)
    /\ trace (after_reading st1)
       = trace st
         ++ [EvTranslate text source_lang target_lang max_length num_beams;
             EvTime; EvTime]
    /\ existsb is_backend_event
         [EvTranslate text source_lang target_lang max_length num_beams;
          EvTime; EvTime] = false.
Proof.
  intros Hv st0 st1 duration_ms.
  destruct (validate_input_shape (registry st) text source_lang target_lang 500)
    as [[msg Hmsg]|Hok]; [|congruence].
  exists msg. split; [congruence|]. split; [|split; [|split]].
  - apply (translate_invalid _ _ _ _ _ _ _ Hmsg).
  - apply elapsed_ms_nonneg.
  - simpl. rewrite <- !app_assoc. reflexivity.
  - reflexivity.
Qed.

(** C7: for a valid input and a model that is not loaded, [translate]
    answers with the error "Model not loaded. Call load_model() first." and a
    duration, having only read the clock twice: nothing was asked of the
    tokenizer or the model. *)
Theorem translate_model_not_loaded
    text source_lang target_lang max_length num_beams (st : state) :
  validate_input (registry st) text source_lang target_lang 500
  = (true, None) ->
  _model_loaded st = false ->
  let st0 := after_log
               (EvTranslate text source_lang target_lang max_length num_beams)
               st in
  let st1 := after_reading st0 in
  translate text source_lang target_lang max_length num_beams st
  = (Ok {[ "success" := VBool false;
           "error" := VStr (lit "Model not loaded. Call load_model() first.");
           "duration_ms" := VInt (elapsed_ms (reading st0) (reading st1)) ]},
     after_reading st1)
  /\ trace (after_reading st1)
     = trace st
       ++ [EvTranslate text source_lang target_lang max_length num_beams;
           EvTime; EvTime]
  /\ existsb is_backend_event
       [EvTranslate text source_lang target_lang max_length num_beams;
        EvTime; EvTime] = false.
Proof.
  intros Hv Hloaded st0 st1. split; [|split].
  - apply (translate_not_loaded _ _ _ _ _ _ Hv Hloaded).
  - simpl. rewrite <- !app_assoc. reflexivity.
  - reflexivity.
Qed.

(** What [translate] does once the input is valid and the model loaded: it
    runs the backend and normalises what comes back. *)
Lemma translate_loaded
    text source_lang target_lang max_length num_beams (st : state) :
  validate_input (registry st) text source_lang target_lang 500
  = (true, None) ->
  _model_loaded st = true ->
  let st0 := after_log
               (EvTranslate text source_lang target_lang max_length num_beams)
               st in
  let st1 := after_reading st0 in
  translate text source_lang target_lang max_length num_beams st
  = match run_backend text source_lang max_length num_beams st1 with
    | (Ok translated_text, st2) =>
        let duration_ms := elapsed_ms (reading st0) (reading st2) in
        let words := Z.of_nat (length (split text)) in
        if Qeq_bool (inject_Z duration_ms / 1000) 0
        then (Ok (failure (VStr (exn_msg ZeroDivisionError))
                          (elapsed_ms (reading st0)
                                      (reading (after_reading st2)))),
              after_reading (after_reading st2))
        else (Ok {[ "success" := VBool true;
                    "translated_text" := VStr translated_text;
                    "source_lang" := VStr source_lang;
                    "target_lang" := VStr target_lang;
                    "duration_ms" := VInt duration_ms;
                    "word_count" := VInt words;
                    "inference_speed" :=
                      VStr (format_1f
                              (inject_Z words / (inject_Z duration_ms / 1000))
                            ++ lit " words/sec") ]},
              after_reading st2)
    | (Raised e, st2) =>
        (Ok (failure (VStr (exn_msg e))
                     (elapsed_ms (reading st0) (reading st2))),
         after_reading st2)
    end.
Proof.
  intros Hv Hloaded st0 st1.
  unfold translate, bind, log, now, get_registry, get_model_loaded.
  rewrite registry_after_reading, registry_after_log, Hv.
  cbn [negb after_reading after_log with_env _model_loaded].
  rewrite Hloaded. cbn [negb].
  unfold try_except. fold st0. fold st1.
  destruct (run_backend text source_lang max_length num_beams st1)
    as [[translated_text|e] st2]; [|reflexivity].
  unfold truediv. change (Qeq_bool 1000 0) with false.
  unfold ret at 1. cbv beta iota.
  destruct (Qeq_bool _ 0); reflexivity.
Qed.

(** A fault at any of the three stages is a fault of [run_backend]. *)
Lemma run_backend_tokenizer_fault
    text source_lang max_length num_beams (st : state) e w :
  tokenizer_call (source_lang ++ lit ": " ++ text) (env st) = (Raised e, w) ->
  exists st', run_backend text source_lang max_length num_beams st
              = (Raised e, st').
Proof.
  intros H. unfold run_backend, bind, tokenize. rewrite H. eauto.
Qed.

Lemma run_backend_generate_fault
    text source_lang max_length num_beams (st : state) inputs w e w' :
  TORCH_AVAILABLE = true ->
  tokenizer_call (source_lang ++ lit ": " ++ text) (env st) = (Ok inputs, w) ->
  model_generate inputs max_length num_beams w = (Raised e, w') ->
  exists st', run_backend text source_lang max_length num_beams st
              = (Raised e, st').
Proof.
  intros Ht H1 H2.
  unfold run_backend, bind, tokenize, enter_no_grad, generate.
  rewrite H1, Ht. cbn. rewrite H2. eauto.
Qed.

Lemma run_backend_decode_fault
    text source_lang max_length num_beams (st : state)
    inputs w outputs w' e w'' :
  TORCH_AVAILABLE = true ->
  tokenizer_call (source_lang ++ lit ": " ++ text) (env st) = (Ok inputs, w) ->
  model_generate inputs max_length num_beams w = (Ok outputs, w') ->
  tokenizer_decode outputs w' = (Raised e, w'') ->
  exists st', run_backend text source_lang max_length num_beams st
              = (Raised e, st').
Proof.
  intros Ht H1 H2 H3.
  unfold run_backend, bind, tokenize, enter_no_grad, generate, decode.
  rewrite H1, Ht. cbn. rewrite H2. cbn. rewrite H3. eauto.
Qed.

(** C3: when the tokenizer, the model or the decoder raises, [translate]
    returns (it does not raise) the failure dictionary carrying the
    exception's message and a duration. *)
Theorem translate_backend_fault
    text source_lang target_lang max_length num_beams (st : state) e st2 :
  validate_input (registry st) text source_lang target_lang 500
  = (true, None) ->
  _model_loaded st = true ->
  let st0 := after_log
               (EvTranslate text source_lang target_lang max_length num_beams)
               st in
  run_backend text source_lang max_length num_beams (after_reading st0)
  = (Raised e, st2) ->
  translate text source_lang target_lang max_length num_beams st
  = (Ok {[ "success" := VBool false; "error" := VStr (exn_msg e);
           "duration_ms" := VInt (elapsed_ms (reading st0) (reading st2)) ]},
     after_reading st2).
Proof.
  intros Hv Hloaded st0 Hraise.
  rewrite (translate_loaded _ _ _ _ _ _ Hv Hloaded).
  fold st0. rewrite Hraise. reflexivity.
Qed.

(** [translate] always returns a dictionary. *)
Lemma translate_total
    text source_lang target_lang max_length num_beams (st : state) :
  exists result st',
    translate text source_lang target_lang max_length num_beams st
    = (Ok result, st').
Proof.
  destruct (validate_input_shape (registry st) text source_lang target_lang 500)
    as [[msg Hmsg]|Hok].
  - rewrite (translate_invalid _ _ _ _ _ _ _ Hmsg). eauto.
  - destruct (_model_loaded st) eqn:Hloaded.
    + rewrite (translate_loaded _ _ _ _ _ _ Hok Hloaded).
      destruct (run_backend _ _ _ _ _) as [[out|e] st2]; [|eauto].
      cbv zeta. destruct (Qeq_bool _ 0); eauto.
    + rewrite (translate_not_loaded _ _ _ _ _ _ Hok Hloaded). eauto.
Qed.


(** The same path when the clock shows no elapsed millisecond: the division
    raises inside the [try], and the translation is reported as a failure. *)
Lemma translate_zero_duration
    text source_lang target_lang max_length num_beams (st : state)
    translated_text st2 :
  validate_input (registry st) text source_lang target_lang 500
  = (true, None) ->
  _model_loaded st = true ->
  let st0 := after_log
               (EvTranslate text source_lang target_lang max_length num_beams)
               st in
  run_backend text source_lang max_length num_beams (after_reading st0)
  = (Ok translated_text, st2) ->
  elapsed_ms (reading st0) (reading st2) = 0 ->
  translate text source_lang target_lang max_length num_beams st
  = (Ok {[ "success" := VBool false;
           "error" := VStr (lit "float division by zero");
           "duration_ms" :=
             VInt (elapsed_ms (reading st0) (reading (after_reading st2))) ]},
     after_reading (after_reading st2)).
Proof.
  intros Hv Hloaded st0 Hrun Hd.
  rewrite (translate_loaded _ _ _ _ _ _ Hv Hloaded).
  fold st0. rewrite Hrun. cbv zeta. rewrite Hd. reflexivity.
Qed.

(** ** batch_translate *)

Lemma batch_loop_run texts source_lang target_lang :
  forall results (st : state),
  exists new st',
    batch_loop texts source_lang target_lang results st
    = (Ok (results ++ new), st')
    /\ batch_run source_lang target_lang texts st new st'
    /\ length new = length texts.
Proof.
  induction texts as [|text rest IH]; intros results st.
  - exists [], st. rewrite app_nil_r. repeat split. constructor.
  - destruct (translate_total text source_lang target_lang 256 4 st)
      as (result & st1 & Hresult).
    destruct (IH (results ++ [result]) st1) as (new & st2 & Hloop & Hrun & Hlen).
    exists (result :: new), st2. split; [|split].
    + cbn [batch_loop]. unfold bind at 1. rewrite Hresult.
      rewrite Hloop, <- app_assoc. reflexivity.
    + econstructor; eassumption.
    + simpl. congruence.
Qed.

(** C5: [batch_translate] returns, for every list of texts, one result per
    text and in the order of the texts; each result is what [translate]
    answers for that text in the state the previous texts left, whether or
    not those succeeded. *)
Theorem batch_translate_in_order texts source_lang target_lang (st : state) :
  exists results st',
    batch_translate texts source_lang target_lang st = (Ok results, st')
    /\ length results = length texts
    /\ batch_run source_lang target_lang texts st results st'.
Proof.
  destruct (batch_loop_run texts source_lang target_lang [] st)
    as (new & st' & Hloop & Hrun & Hlen).
  exists new, st'. auto.
Qed.

End TranslateFacts.

(** ** Runs on the scripted platform *)

(** C2, at a run where no millisecond elapses: the model has translated the
    text, yet the answer is a failure whose error is the division's. *)
Theorem translate_zero_duration_is_failure :
  fst (@translate Stub.platform (lit "hello world") (lit "en") (lit "hi") 256 4
         (Stub.start true (Stub.World [1%Q; 1%Q; 1%Q] None)))
  = Ok {[ "success" := VBool false;
          "error" := VStr (lit "float division by zero");
          "duration_ms" := VInt 0 ]}.
Proof. vm_compute. reflexivity. Qed.


(** C4 as first stated fails: on a wall clock that is set back between the
    two readings of [translate] (2 s, then 1 s), a refused input is answered
    with a negative [duration_ms]. *)
Lemma translate_duration_can_be_negative :
  validate_input SUPPORTED_LANGUAGES (lit "hello") (lit "xx") (lit "hi") 500
  = (false, Some (lit "Unsupported source language: xx"))
  /\ fst (@translate Stub.platform (lit "hello") (lit "xx") (lit "hi") 256 4
            (Stub.start true (Stub.World [2%Q; 1%Q] None)))
     = Ok {[ "success" := VBool false;
             "error" := VStr (lit "Unsupported source language: xx");
             "duration_ms" := VInt (-1000) ]}
  /\ ~ 0 <= -1000.
Proof.
  split; [vm_compute; reflexivity|].
  split; [vm_compute; reflexivity | lia].
Qed.

Lemma translate_validation_failure_witness :
  validate_input SUPPORTED_LANGUAGES (lit "hello") (lit "xx") (lit "hi") 500
  = (false, Some (lit "Unsupported source language: xx"))
  /\ fst (@translate Stub.platform (lit "hello") (lit "xx") (lit "hi") 256 4
            (Stub.start true (Stub.World [1%Q; (5 # 4)%Q] None)))
     = Ok {[ "success" := VBool false;
             "error" := VStr (lit "Unsupported source language: xx");
             "duration_ms" := VInt 250 ]}.
Proof.
  assert (H : validate_input
                (registry (Stub.start true (Stub.World [1%Q; (5 # 4)%Q] None)))
                (lit "hello") (lit "xx") (lit "hi") 500
              = (false, Some (lit "Unsupported source language: xx")))
    by (vm_compute; reflexivity).
  split; [exact H|].
  destruct (translate_validation_failure
              (lit "hello") (lit "xx") (lit "hi") 256 4 _ _ H)
    as (msg & Hmsg & Htranslate & _).
  rewrite Htranslate. injection Hmsg as <-. reflexivity.
Defined.

Lemma translate_model_not_loaded_witness :
  validate_input SUPPORTED_LANGUAGES (lit "hello") (lit "en") (lit "hi") 500
  = (true, None)
  /\ fst (@translate Stub.platform (lit "hello") (lit "en") (lit "hi") 256 4
            (Stub.start false (Stub.World [1%Q; (5 # 4)%Q] None)))
     = Ok {[ "success" := VBool false;
             "error" := VStr (lit "Model not loaded. Call load_model() first.");
             "duration_ms" := VInt 250 ]}.
Proof.
  assert (H : validate_input
                (registry (Stub.start false (Stub.World [1%Q; (5 # 4)%Q] None)))
                (lit "hello") (lit "en") (lit "hi") 500
              = (true, None))
    by (vm_compute; reflexivity).
  split; [exact H|].
  destruct (translate_model_not_loaded
              (lit "hello") (lit "en") (lit "hi") 256 4 _ H eq_refl)
    as (Htranslate & _).
  rewrite Htranslate. reflexivity.
Defined.

Lemma translate_backend_fault_witness :
  fst (@translate Stub.platform (lit "hello") (lit "en") (lit "hi") 256 4
         (Stub.start true (Stub.World [1%Q; 3%Q] (Some Stub.out_of_memory))))
  = Ok {[ "success" := VBool false;
          "error" := VStr (lit "out of memory");
          "duration_ms" := VInt 2000 ]}.
Proof.
  rewrite (translate_backend_fault
             (lit "hello") (lit "en") (lit "hi") 256 4
             (Stub.start true (Stub.World [1%Q; 3%Q] (Some Stub.out_of_memory)))
             Stub.out_of_memory
             (snd (@run_backend Stub.platform (lit "hello") (lit "en") 256 4
                     (after_reading
                        (after_log
                           (EvTranslate (lit "hello") (lit "en") (lit "hi") 256 4)
                           (Stub.start true
                              (Stub.World [1%Q; 3%Q]
                                 (Some Stub.out_of_memory)))))))
             ltac:(vm_compute; reflexivity) eq_refl
             ltac:(vm_compute; reflexivity)).
  reflexivity.
Defined.

(** ** The store of dict objects *)

Section StoreFacts.
Context `{P : Platform}.

Lemma keeps_ret {A} (a : A) : keeps_store (ret a).
Proof. intros st. auto. Qed.

Lemma keeps_raise {A} (e : exn) : keeps_store (@raise _ A e).
Proof. intros st. auto. Qed.

Lemma keeps_bind {A B} (m : M A) (k : A -> M B) :
  keeps_store m -> (forall a, keeps_store (k a)) -> keeps_store (bind m k).
Proof.
  intros Hm Hk st. unfold bind. specialize (Hm st).
  destruct (m st) as [[a|e] st1]; simpl in Hm.
  - destruct Hm as [Hh1 He1], (Hk a st1) as [Hh He]. split; congruence.
  - exact Hm.
Qed.

Lemma keeps_try {A} (body : M A) (handler : exn -> M A) :
  keeps_store body -> (forall e, keeps_store (handler e)) ->
  keeps_store (try_except body handler).
Proof.
  intros Hm Hk st. unfold try_except. specialize (Hm st).
  destruct (body st) as [[a|e] st1]; simpl in Hm.
  - exact Hm.
  - destruct Hm as [Hh1 He1], (Hk e st1) as [Hh He]. split; congruence.
Qed.

Lemma keeps_log ev : keeps_store (log ev).
Proof. intros st. auto. Qed.

Lemma keeps_now : keeps_store now.
Proof. intros st. auto. Qed.

Lemma keeps_tokenize s : keeps_store (tokenize s).
Proof. intros st. unfold tokenize. destruct (tokenizer_call _ _). auto. Qed.

Lemma keeps_generate i ml nb : keeps_store (generate i ml nb).
Proof. intros st. unfold generate. destruct (model_generate _ _ _ _). auto. Qed.

Lemma keeps_decode o : keeps_store (decode o).
Proof. intros st. unfold decode. destruct (tokenizer_decode _ _). auto. Qed.

Lemma keeps_dir_exists : keeps_store dir_exists.
Proof. intros st. unfold dir_exists. destruct (model_dir_exists _). auto. Qed.

Lemma keeps_load_pretrained : keeps_store load_pretrained.
Proof. intros st. unfold load_pretrained. destruct (from_pretrained _). auto. Qed.

Lemma keeps_get_model_loaded : keeps_store get_model_loaded.
Proof. intros st. auto. Qed.

Lemma keeps_set_model_loaded b : keeps_store (set_model_loaded b).
Proof. intros st. auto. Qed.

Lemma keeps_get_initialized : keeps_store get_initialized.
Proof. intros st. auto. Qed.

Lemma keeps_set_initialized b : keeps_store (set_initialized b).
Proof. intros st. auto. Qed.

Lemma keeps_get_registry : keeps_store get_registry.
Proof. intros st. auto. Qed.

Lemma keeps_truediv a b : keeps_store (truediv a b).
Proof. unfold truediv. destruct (Qeq_bool b 0); intros st; auto. Qed.

Lemma keeps_enter_no_grad : keeps_store enter_no_grad.
Proof. unfold enter_no_grad. destruct TORCH_AVAILABLE; intros st; auto. Qed.

Lemma keeps_call_strip v : keeps_store (call_strip v).
Proof. destruct v; intros st; auto. Qed.

Lemma keeps_call_lower v : keeps_store (call_lower v).
Proof. destruct v; intros st; auto. Qed.

Create HintDb keeps.

#[local] Hint Resolve keeps_ret keeps_raise keeps_log keeps_now keeps_tokenize
  keeps_generate keeps_decode keeps_dir_exists keeps_load_pretrained
  keeps_get_model_loaded keeps_set_model_loaded keeps_get_initialized
  keeps_set_initialized keeps_get_registry keeps_truediv keeps_enter_no_grad
  keeps_call_strip keeps_call_lower : keeps.

(** Walks through a computation built from the pieces above. *)
Ltac keeps :=
  repeat first
    [ progress auto with keeps
    | apply keeps_bind; [|intros ?]
    | apply keeps_try; [|intros ?]
    | match goal with
      | |- keeps_store (if ?b then _ else _) => destruct b
      | |- keeps_store (let '(_, _) := ?p in _) => destruct p
      end ].

Lemma keeps_load_model : keeps_store load_model.
Proof. unfold load_model. keeps. Qed.

Lemma keeps_run_backend text source_lang max_length num_beams :
  keeps_store (run_backend text source_lang max_length num_beams).
Proof. unfold run_backend. keeps. Qed.

Lemma keeps_translate text source_lang target_lang max_length num_beams :
  keeps_store (translate text source_lang target_lang max_length num_beams).
Proof. unfold translate. pose proof keeps_run_backend. keeps. Qed.

Lemma keeps_batch_translate texts source_lang target_lang :
  keeps_store (batch_translate texts source_lang target_lang).
Proof.
  unfold batch_translate. generalize (@nil dict).
  induction texts as [|text rest IH]; intros results; simpl.
  - keeps.
  - apply keeps_bind; [apply keeps_translate | intros result; apply IH].
Qed.

Lemma keeps_initialize : keeps_store initialize.
Proof. unfold initialize. pose proof keeps_load_model. keeps. Qed.

Lemma keeps_handle_translate_request request_data :
  keeps_store (handle_translate_request request_data).
Proof.
  unfold handle_translate_request.
  pose proof keeps_initialize. pose proof keeps_translate. keeps.
Qed.

(** Whatever keeps the store keeps the table. *)
Lemma keeps_store_intact {A} (m : M A) (st : state) :
  keeps_store m -> registry_intact st -> registry_intact (snd (m st)).
Proof.
  intros Hm [Hh He]. destruct (Hm st) as [Hh' He'].
  unfold registry_intact. rewrite Hh', He'. auto.
Qed.

(** A copy is a new object: the table stays where it was, unexposed. *)
Lemma dict_copy_fresh (st : state) :
  registry_intact st ->
  let r := fresh (dom (heap st)) in
  dict_copy SUPPORTED_LANGUAGES_ref st
  = (Ok r, State (env st) (trace st)
               (<[r := SUPPORTED_LANGUAGES]> (heap st))
               ({[r]} ∪ exposed st) (_model_loaded st) (_initialized st))
  /\ r <> SUPPORTED_LANGUAGES_ref.
Proof.
  intros [Hh He] r. split.
  - unfold dict_copy. fold r.
    rewrite (lookup_total_correct _ _ _ Hh). reflexivity.
  - intros Heq. apply (is_fresh (dom (heap st))). fold r. rewrite Heq.
    eapply elem_of_dom_2. exact Hh.
Qed.

Lemma get_supported_languages_intact (st : state) :
  registry_intact st -> registry_intact (snd (get_supported_languages st)).
Proof.
  intros Hst. destruct (dict_copy_fresh st Hst) as [Hcopy Hne].
  unfold get_supported_languages. rewrite Hcopy.
  destruct Hst as [Hh He]. split; simpl.
  - rewrite lookup_insert_ne; [exact Hh | exact Hne].
  - rewrite elem_of_union, elem_of_singleton.
    intros [Heq|Hin]; [apply Hne; symmetry; exact Heq | contradiction].
Qed.

Lemma handle_languages_request_state (st : state) :
  snd (handle_languages_request st) = snd (get_supported_languages st).
Proof. reflexivity. Qed.

Lemma caller_update_intact r f (st : state) :
  registry_intact st -> registry_intact (caller_update r f st).
Proof.
  intros [Hh He]. unfold caller_update.
  destruct (bool_decide (r ∈ exposed st)) eqn:Hr; [|split; auto].
  apply bool_decide_eq_true in Hr.
  split; simpl; [|exact He].
  rewrite lookup_insert_ne; [exact Hh|]. intros Heq. subst r. contradiction.
Qed.

Lemma perform_intact c (st : state) :
  registry_intact st -> registry_intact (perform c st).
Proof.
  intros Hst. destruct c; unfold perform;
    try (apply caller_update_intact; exact Hst).
  - apply keeps_store_intact; [apply keeps_load_model | exact Hst].
  - apply keeps_store_intact; [apply keeps_translate | exact Hst].
  - apply keeps_store_intact; [apply keeps_batch_translate | exact Hst].
  - apply get_supported_languages_intact; exact Hst.
  - apply keeps_store_intact; [apply keeps_initialize | exact Hst].
  - apply keeps_store_intact; [apply keeps_handle_translate_request | exact Hst].
  - rewrite handle_languages_request_state.
    apply get_supported_languages_intact; exact Hst.
Qed.

Lemma reachable_intact (st : state) : reachable st -> registry_intact st.
Proof.
  induction 1 as [e|c st _ IH].
  - split; [reflexivity | apply not_elem_of_empty].
  - apply perform_intact; exact IH.
Qed.

(** C9: in every reachable state the class attribute is the table of the
    class body; [handle_languages_request] answers [success: True] with a
    count of 22 and a reference to a dict holding the table;
    [get_supported_languages] returns a reference to a new dict, which is not
    the class attribute, and whatever a caller then does to that dict changes
    the dict and leaves the class attribute as it was. *)
Theorem registry_never_mutated (st : state) :
  reachable st ->
  registry st = SUPPORTED_LANGUAGES
  /\ (exists r st',
        handle_languages_request st
        = (Ok {[ "success" := VBool true; "languages" := VDict r;
                 "count" := VInt 22 ]}, st')
        /\ heap st' !! r = Some SUPPORTED_LANGUAGES
        /\ registry st' = SUPPORTED_LANGUAGES)
  /\ (exists r st',
        get_supported_languages st = (Ok r, st')
        /\ r <> SUPPORTED_LANGUAGES_ref
        /\ heap st' !! r = Some SUPPORTED_LANGUAGES
        /\ forall f,
             heap (caller_update r f st') !! r = Some (f SUPPORTED_LANGUAGES)
             /\ registry (caller_update r f st') = SUPPORTED_LANGUAGES).
Proof.
  intros Hreach. pose proof (reachable_intact st Hreach) as Hst.
  destruct (dict_copy_fresh st Hst) as [Hcopy Hne].
  set (r := fresh (dom (heap st))) in *.
  pose proof (get_supported_languages_intact st Hst) as Hst'.
  unfold get_supported_languages in *. rewrite Hcopy in Hst'. simpl in Hst'.
  split; [|split].
  - unfold registry. apply lookup_total_correct. apply Hst.
  - eexists r, _. split; [|split].
    + unfold handle_languages_request, try_except, bind,
        get_supported_languages, len_at, ret.
      rewrite Hcopy. cbn [heap]. rewrite lookup_total_insert_eq. reflexivity.
    + simpl. apply lookup_insert_eq.
    + unfold registry. apply lookup_total_correct. apply Hst'.
  - eexists r, _. split; [exact Hcopy|]. split; [exact Hne|].
    split; [simpl; apply lookup_insert_eq|].
    intros f. split.
    + unfold caller_update. cbn [exposed heap].
      rewrite bool_decide_eq_true_2
        by (apply elem_of_union_l, elem_of_singleton; reflexivity).
      cbn [heap]. rewrite lookup_insert_eq, lookup_total_insert_eq.
      reflexivity.
    + unfold registry. apply lookup_total_correct.
      apply (caller_update_intact r f _ Hst').
Qed.

End StoreFacts.

Lemma registry_never_mutated_witness :
  @registry Stub.platform
    (perform (CSetItem 1%nat (lit "xx") (lit "Klingon"))
       (perform CHandleLanguages
          (@initial Stub.platform (Stub.World [] None))))
  = SUPPORTED_LANGUAGES.
Proof.
  apply (@registry_never_mutated Stub.platform).
  do 2 apply reachable_perform. apply reachable_initial.
Defined.

(** ** The envelope *)

Section WrapperFacts.
Context `{P : Platform}.

Lemma returns_ret {A} (a : A) : returns (ret a).
Proof. intros st. eexists _, _. reflexivity. Qed.

Lemma returns_bind {A B} (m : M A) (k : A -> M B) :
  returns m -> (forall a, returns (k a)) -> returns (bind m k).
Proof.
  intros Hm Hk st. unfold bind.
  destruct (Hm st) as (a & st1 & ->). apply Hk.
Qed.

(** A handler that returns makes the whole [try] return. *)
Lemma returns_try {A} (body : M A) (handler : exn -> M A) :
  (forall e, returns (handler e)) -> returns (try_except body handler).
Proof.
  intros Hk st. unfold try_except.
  destruct (body st) as [[a|e] st1]; [eexists _, _; reflexivity | apply Hk].
Qed.

Lemma returns_dir_exists : returns dir_exists.
Proof.
  intros st. unfold dir_exists. destruct (model_dir_exists _).
  eexists _, _. reflexivity.
Qed.

Lemma returns_load_model : returns load_model.
Proof.
  unfold load_model.
  apply returns_bind; [intros st; eexists _, _; reflexivity|].
  intros loaded. destruct loaded; [apply returns_ret|].
  destruct (negb _); [apply returns_ret|].
  apply returns_bind; [apply returns_dir_exists|].
  intros found. destruct (negb found); [apply returns_ret|].
  apply returns_try. intros e.
  apply returns_bind; [intros st; eexists _, _; reflexivity|].
  intros _. apply returns_ret.
Qed.

Lemma returns_initialize : returns initialize.
Proof.
  unfold initialize.
  apply returns_bind; [intros st; eexists _, _; reflexivity|].
  intros done. destruct done; [apply returns_ret|].
  apply returns_bind; [apply returns_load_model|].
  intros loaded. destruct loaded; [|apply returns_ret].
  apply returns_bind; [intros st; eexists _, _; reflexivity|].
  intros _. apply returns_ret.
Qed.

Lemma returns_translate text source_lang target_lang max_length num_beams :
  returns (translate text source_lang target_lang max_length num_beams).
Proof. intros st. apply translate_total. Qed.

(** The envelope never raises. *)
Lemma returns_handle_translate_request request_data :
  returns (handle_translate_request request_data).
Proof.
  unfold handle_translate_request. apply returns_try.
  intros e. apply returns_ret.
Qed.

(** [d.get(k, default)] for a key that is not there. *)
Lemma dict_get_missing (d : dict) k default :
  d !! k = None -> dict_get d k default = default.
Proof. unfold dict_get. intros ->. reflexivity. Qed.

(** What the envelope does with a request whose three fields, where present,
    are strings. *)
Lemma handle_translate_request_typed
    request_data (st : state) text source_lang target_lang :
  dict_get request_data "text" (VStr []) = VStr text ->
  dict_get request_data "source_lang" (VStr []) = VStr source_lang ->
  dict_get request_data "target_lang" (VStr []) = VStr target_lang ->
  handle_translate_request request_data st
  = if is_empty (strip text) then (Ok (envelope_error msg_text_required), st)
    else if is_empty (str_lower source_lang) || is_empty (str_lower target_lang)
    then (Ok (envelope_error msg_langs_required), st)
    else
      match (if _initialized st then ret true else initialize) st with
      | (Ok true, st1) =>
          translate (strip text) (str_lower source_lang)
                    (str_lower target_lang) 256 4 st1
      | (Ok false, st1) => (Ok (envelope_error msg_init_failed), st1)
      | (Raised e, st1) => (Ok (envelope_error (exn_msg e)), st1)
      end.
Proof.
  intros Ht Hs Hg. unfold handle_translate_request. rewrite Ht, Hs, Hg.
  unfold try_except, bind at 1 2 3, call_strip, call_lower, ret at 1 2 3.
  destruct (is_empty (strip text)); [reflexivity|].
  destruct (is_empty (str_lower source_lang) || is_empty (str_lower target_lang));
    [reflexivity|].
  unfold bind, get_initialized.
  destruct (_initialized st); cbn [negb].
  - unfold ret. cbn [negb].
    destruct (translate_total (strip text) (str_lower source_lang)
                (str_lower target_lang) 256 4 st) as (r & st' & E).
    rewrite E. reflexivity.
  - destruct (initialize st) as [[[|]|e] st1]; try reflexivity.
    cbn [negb].
    destruct (translate_total (strip text) (str_lower source_lang)
                (str_lower target_lang) 256 4 st1) as (r & st' & E).
    rewrite E. reflexivity.
Qed.

(** C6: the envelope trims the text and lower-cases the two codes first.  A
    text that is missing or empty once trimmed is answered with "Text
    parameter is required and cannot be empty"; otherwise a code that is
    missing or empty is answered with "source_lang and target_lang parameters
    are required"; in both cases nothing else happens (the state is the one
    before the call, so [translate] was not entered).  Otherwise the trimmed
    text and the lower-cased codes are what [translate] receives. *)
Theorem handle_translate_request_parameters
    request_data (st : state) text source_lang target_lang :
  str_lower [] = [] ->
  dict_get request_data "text" (VStr []) = VStr text ->
  dict_get request_data "source_lang" (VStr []) = VStr source_lang ->
  dict_get request_data "target_lang" (VStr []) = VStr target_lang ->
  (strip text = [] ->
   handle_translate_request request_data st
   = (Ok {[ "success" := VBool false;
            "error" :=
              VStr (lit "Text parameter is required and cannot be empty") ]},
      st))
  /\ (strip text <> [] ->
      source_lang = [] \/ target_lang = [] ->
      handle_translate_request request_data st
      = (Ok {[ "success" := VBool false;
               "error" :=
                 VStr (lit "source_lang and target_lang parameters are required") ]},
         st))
  /\ (strip text <> [] ->
      str_lower source_lang <> [] ->
      str_lower target_lang <> [] ->
      exists ready st1,
        (if _initialized st then ret true else initialize) st = (Ok ready, st1)
        /\ handle_translate_request request_data st
           = if ready
             then translate (strip text) (str_lower source_lang)
                            (str_lower target_lang) 256 4 st1
             else (Ok {[ "success" := VBool false;
                         "error" :=
                           VStr (lit "Failed to initialize translation model") ]},
                   st1)).
Proof.
  intros Hlower Ht Hs Hg.
  rewrite (handle_translate_request_typed _ st _ _ _ Ht Hs Hg).
  split; [|split].
  - intros ->. reflexivity.
  - intros Hne Hcode. apply is_empty_false in Hne. rewrite Hne.
    assert (E : is_empty (str_lower source_lang)
                || is_empty (str_lower target_lang) = true).
    { destruct Hcode as [-> | ->]; rewrite Hlower; simpl;
        [reflexivity | apply orb_true_r]. }
    rewrite E. reflexivity.
  - intros Hne Hsl Htl.
    apply is_empty_false in Hne, Hsl, Htl. rewrite Hne, Hsl, Htl. cbn [orb].
    assert (Hready : exists ready st1,
               (if _initialized st then ret true else initialize) st
               = (Ok ready, st1)).
    { destruct (_initialized st); [eexists _, _; reflexivity|].
      apply returns_initialize. }
    destruct Hready as (ready & st1 & E). exists ready, st1.
    split; [exact E|]. rewrite E. destruct ready; reflexivity.
Qed.

(** ** The empty-text rule behind the envelope *)

Lemma strip_strip_nonempty (text : str) :
  strip text <> [] -> strip (strip text) <> [].
Proof.
  intros Hne Hnil. apply strip_nil_iff in Hnil.
  unfold strip at 1, rstrip in Hne. unfold strip, rstrip in Hnil.
  destruct (lstrip (rev (lstrip text))) as [|c r] eqn:E; [contradiction|].
  apply lstrip_head in E.
  rewrite forallb_forall in Hnil.
  rewrite (Hnil c) in E; [discriminate|].
  apply in_rev. rewrite rev_involutive. left. reflexivity.
Qed.

(** A text that does not strip to nothing is never refused as empty. *)
Lemma validate_input_not_empty_error
    langs text source_lang target_lang max_words :
  strip text <> [] ->
  validate_input langs text source_lang target_lang max_words
  <> (false, Some (lit "Text cannot be empty")).
Proof.
  intros Hne. unfold validate_input. rewrite empty_text_test.
  apply is_empty_false in Hne. rewrite Hne.
  repeat match goal with
         | |- context [if ?b then _ else _] => destruct b
         end; intros [= H]; cbn in H; discriminate.
Qed.

Lemma failure_error error duration_ms :
  failure error duration_ms !! "error" = Some error.
Proof. reflexivity. Qed.

Lemma envelope_error_error error :
  envelope_error error !! "error" = Some (VStr error).
Proof. reflexivity. Qed.

(** A fault of [run_backend] is one of the tokenizer, the model or the
    decoder, or the [with None:] of a missing torch. *)
Lemma run_backend_fault_message
    msg text source_lang max_length num_beams (st : state) e st' :
  backend_never_says msg ->
  exn_msg TypeError_no_context_manager <> msg ->
  run_backend text source_lang max_length num_beams st = (Raised e, st') ->
  exn_msg e <> msg.
Proof.
  intros (Htok & Hgen & Hdec) Htype.
  unfold run_backend, bind, tokenize, generate, decode, enter_no_grad.
  destruct (tokenizer_call _ _) as [[inputs|e1] w1] eqn:E1.
  - destruct TORCH_AVAILABLE; unfold ret, raise.
    + destruct (model_generate _ _ _ _) as [[outputs|e2] w2] eqn:E2.
      * destruct (tokenizer_decode _ _) as [[out|e3] w3] eqn:E3.
        -- discriminate.
        -- intros [= <- <-]. eapply Hdec. exact E3.
      * intros [= <- <-]. eapply Hgen. exact E2.
    + intros [= <- <-]. exact Htype.
  - intros [= <- <-]. eapply Htok. exact E1.
Qed.

(** The error of [translate] is the validator's empty-text message only if
    the validator produced it, a silent backend given. *)
Lemma translate_error_not_empty_text
    text source_lang target_lang max_length num_beams (st : state)
    response st' :
  validate_input (registry st) text source_lang target_lang 500
  <> (false, Some (lit "Text cannot be empty")) ->
  backend_never_says (lit "Text cannot be empty") ->
  translate text source_lang target_lang max_length num_beams st
  = (Ok response, st') ->
  response !! "error" <> Some (VStr (lit "Text cannot be empty")).
Proof.
  intros Hv Hquiet.
  destruct (validate_input_shape (registry st) text source_lang target_lang 500)
    as [[msg Hmsg]|Hok].
  - rewrite (translate_invalid _ _ _ _ _ _ _ Hmsg).
    intros [= <- _]. rewrite failure_error.
    intros [= E]. apply Hv. rewrite Hmsg, E. reflexivity.
  - destruct (_model_loaded st) eqn:Hloaded.
    + rewrite (translate_loaded _ _ _ _ _ _ Hok Hloaded).
      destruct (run_backend _ _ _ _ _) as [[out|e] st2] eqn:Hrun.
      * cbv zeta. destruct (Qeq_bool _ 0).
        -- intros [= <- _]. rewrite failure_error. discriminate.
        -- intros [= <- _]. change (@None pyval <> Some (VStr (lit "Text cannot be empty"))).
           discriminate.
      * intros [= <- _]. rewrite failure_error. intros [= E].
        eapply run_backend_fault_message in Hrun; [apply Hrun; exact E
                                                  | exact Hquiet | discriminate].
    + rewrite (translate_not_loaded _ _ _ _ _ _ Hok Hloaded).
      intros [= <- _]. rewrite failure_error. discriminate.
Qed.

Lemma AttributeError_message v attr :
  exn_msg (AttributeError v attr) <> lit "Text cannot be empty".
Proof. cbn. discriminate. Qed.

(** The three ways a request is answered: by the envelope at once, by the
    envelope after a failed initialisation, or by [translate] on a text that
    does not strip to nothing. *)
Lemma handle_translate_request_cases request_data (st : state) :
  (exists error,
     handle_translate_request request_data st
     = (Ok (envelope_error error), st)
     /\ error <> lit "Text cannot be empty"
     /\ (forall text source_lang target_lang,
           dict_get request_data "text" (VStr []) = VStr text ->
           dict_get request_data "source_lang" (VStr []) = VStr source_lang ->
           dict_get request_data "target_lang" (VStr []) = VStr target_lang ->
           strip text = [] -> error = msg_text_required))
  \/ (exists text st1,
        dict_get request_data "text" (VStr []) = VStr text
        /\ strip text <> []
        /\ handle_translate_request request_data st
           = (Ok (envelope_error msg_init_failed), st1))
  \/ (exists text source_lang target_lang st1,
        dict_get request_data "text" (VStr []) = VStr text
        /\ strip text <> []
        /\ handle_translate_request request_data st
           = translate (strip text) source_lang target_lang 256 4 st1).
Proof.
  destruct (dict_get request_data "text" (VStr [])) as [| | | |text| |] eqn:Ht;
    try (left; eexists; split;
         [unfold handle_translate_request; rewrite Ht; reflexivity|];
         split; [apply AttributeError_message | discriminate]).
  destruct (dict_get request_data "source_lang" (VStr []))
    as [| | | |source_lang| |] eqn:Hs;
    try (left; eexists; split;
         [unfold handle_translate_request; rewrite Ht, Hs; reflexivity|];
         split; [apply AttributeError_message | discriminate]).
  destruct (dict_get request_data "target_lang" (VStr []))
    as [| | | |target_lang| |] eqn:Hg;
    try (left; eexists; split;
         [unfold handle_translate_request; rewrite Ht, Hs, Hg; reflexivity|];
         split; [apply AttributeError_message | discriminate]).
  rewrite (handle_translate_request_typed _ st _ _ _ Ht Hs Hg).
  destruct (is_empty (strip text)) eqn:Hblank.
  { left. eexists. split; [reflexivity|]. split; [discriminate | auto]. }
  apply is_empty_false in Hblank.
  destruct (is_empty (str_lower source_lang) || is_empty (str_lower target_lang)).
  { left. eexists. split; [reflexivity|]. split; [discriminate|].
    intros t0 s0 g0 [= <-]. contradiction. }
  assert (Hready : exists ready st1,
             (if _initialized st then ret true else initialize) st
             = (Ok ready, st1)).
  { destruct (_initialized st); [eexists _, _; reflexivity|].
    apply returns_initialize. }
  destruct Hready as (ready & st1 & ->). destruct ready.
  - right. right. eexists text, _, _, st1. auto.
  - right. left. eexists text, st1. auto.
Qed.

(** C10: every request is answered (the envelope does not raise), either by
    the envelope itself, with an error other than "Text cannot be empty", or
    by [translate] on a text that does not strip to nothing, on which the
    validator cannot report "Text cannot be empty".  A text that is empty
    once trimmed is answered on the spot, with the envelope's own
    missing-text error when the codes are strings.  So the error of the
    response is "Text cannot be empty" only if the tokenizer or the model
    raises a fault with those very words. *)
Theorem handle_translate_request_empty_text_unreachable
    request_data (st : state) :
  exists response st',
    handle_translate_request request_data st = (Ok response, st')
    /\ ((exists error,
           response = {[ "success" := VBool false; "error" := VStr error ]}
           /\ error <> lit "Text cannot be empty")
        \/ (exists text source_lang target_lang st1,
              strip text <> []
              /\ validate_input (registry st1) text source_lang target_lang 500
                 <> (false, Some (lit "Text cannot be empty"))
              /\ translate text source_lang target_lang 256 4 st1
                 = (Ok response, st')))
    /\ (forall text,
          dict_get request_data "text" (VStr []) = VStr text ->
          strip text = [] ->
          st' = st
          /\ (forall source_lang target_lang,
                dict_get request_data "source_lang" (VStr [])
                = VStr source_lang ->
                dict_get request_data "target_lang" (VStr [])
                = VStr target_lang ->
                response
                = {[ "success" := VBool false;
                     "error" :=
                       VStr (lit "Text parameter is required and cannot be empty")
                   ]}))
    /\ (backend_never_says (lit "Text cannot be empty") ->
        response !! "error" <> Some (VStr (lit "Text cannot be empty"))).
Proof.
  destruct (handle_translate_request_cases request_data st)
    as [(error & Hrun & Hne & Hblank)
       |[(text & st1 & Ht & Hstrip & Hrun)
        |(text & source_lang & target_lang & st1 & Ht & Hstrip & Hrun)]].
  - exists (envelope_error error), st. split; [exact Hrun|].
    split; [left; eauto|]. split.
    + intros text Ht Hstrip. split; [reflexivity|].
      intros source_lang target_lang Hs Hg.
      rewrite (Hblank _ _ _ Ht Hs Hg Hstrip). reflexivity.
    + intros _. rewrite envelope_error_error. congruence.
  - exists (envelope_error msg_init_failed), st1. split; [exact Hrun|].
    split; [left; eexists; split; [reflexivity | discriminate]|]. split.
    + intros text' Ht' Hstrip'. rewrite Ht in Ht'. injection Ht' as <-.
      contradiction.
    + intros _. rewrite envelope_error_error. discriminate.
  - destruct (translate_total (strip text) source_lang target_lang 256 4 st1)
      as (response & st' & Htranslate).
    pose proof (validate_input_not_empty_error
                  (registry st1) (strip text) source_lang target_lang 500
                  (strip_strip_nonempty text Hstrip)) as Hvalid.
    exists response, st'. split; [congruence|].
    split; [right; exists (strip text), source_lang, target_lang, st1;
            auto using strip_strip_nonempty|].
    split.
    + intros text' Ht' Hstrip'. rewrite Ht in Ht'. injection Ht' as <-.
      contradiction.
    + intros Hquiet.
      exact (translate_error_not_empty_text _ _ _ _ _ _ _ _
               Hvalid Hquiet Htranslate).
Qed.

End WrapperFacts.

Lemma handle_translate_request_parameters_witness :
  fst (@handle_translate_request Stub.platform Stub.blank_request
         (Stub.start false (Stub.World [] None)))
  = Ok {[ "success" := VBool false;
          "error" :=
            VStr (lit "Text parameter is required and cannot be empty") ]}.
Proof.
  destruct (@handle_translate_request_parameters Stub.platform
              Stub.blank_request (Stub.start false (Stub.World [] None))
              (lit "   ") (lit "EN") []
              eq_refl
              ltac:(vm_compute; reflexivity)
              ltac:(vm_compute; reflexivity)
              ltac:(vm_compute; reflexivity)) as (Hblank & _).
  rewrite (Hblank eq_refl). reflexivity.
Defined.

(** ** Words *)

Lemma split_from_lstrip (s : str) : split_from [] (lstrip s) = split_from [] s.
Proof.
  induction s as [|c s IH]; simpl; [reflexivity|].
  destruct (isspace c) eqn:Hc; [exact IH|].
  simpl. rewrite Hc. reflexivity.
Qed.

Lemma split_from_whitespace cur (ws : str) :
  forallb isspace ws = true -> split_from cur ws = split_from cur [].
Proof.
  revert cur. induction ws as [|c ws IH]; intros cur H; [reflexivity|].
  simpl in H. apply andb_prop in H as [Hc Hws].
  simpl. rewrite Hc, (IH [] Hws). destruct cur; reflexivity.
Qed.

(** Trailing whitespace adds no word. *)
Lemma split_from_app_whitespace cur (s ws : str) :
  forallb isspace ws = true -> split_from cur (s ++ ws) = split_from cur s.
Proof.
  intros Hws. revert cur. induction s as [|c s IH]; intros cur.
  - apply split_from_whitespace. exact Hws.
  - simpl. destruct (isspace c); [destruct cur|]; rewrite ?IH; reflexivity.
Qed.

Lemma lstrip_decompose (s : str) :
  exists p, s = p ++ lstrip s /\ forallb isspace p = true.
Proof.
  induction s as [|c s (p & Hp & Hws)]; simpl.
  - exists []. auto.
  - destruct (isspace c) eqn:Hc.
    + exists (c :: p). simpl. rewrite Hc. split; [congruence | exact Hws].
    + exists []. auto.
Qed.

Lemma rstrip_decompose (s : str) :
  exists ws, s = rstrip s ++ ws /\ forallb isspace ws = true.
Proof.
  destruct (lstrip_decompose (rev s)) as (p & Hp & Hws).
  exists (rev p). split.
  - unfold rstrip. rewrite <- rev_app_distr, <- Hp, rev_involutive. reflexivity.
  - rewrite forallb_forall in *. intros c Hc. apply Hws, in_rev. exact Hc.
Qed.

(** [text.strip().split()] and [text.split()] are the same words. *)
Lemma split_strip (text : str) : split (strip text) = split text.
Proof.
  unfold split, strip.
  destruct (rstrip_decompose (lstrip text)) as (ws & Hdec & Hws).
  rewrite <- (split_from_lstrip text). rewrite Hdec at 2.
  rewrite split_from_app_whitespace; [reflexivity | exact Hws].
Qed.

Lemma split_from_nil cur (s : str) :
  split_from cur s = [] -> cur = [] /\ forallb isspace s = true.
Proof.
  revert cur. induction s as [|c s IH]; intros cur; simpl.
  - destruct cur; [auto | discriminate].
  - destruct (isspace c).
    + destruct cur; [|discriminate]. intros H. destruct (IH [] H). auto.
    + intros H. destruct (IH _ H). discriminate.
Qed.

(** A text that does not strip to nothing has a word. *)
Lemma word_count_pos (text : str) : strip text <> [] -> 1 <= word_count text.
Proof.
  intros Hne. unfold word_count. rewrite split_strip.
  destruct (split text) as [|w ws] eqn:E; [|simpl; lia].
  exfalso. apply Hne. apply strip_nil_iff.
  apply (split_from_nil [] text). exact E.
Qed.

(** ** What a result of translate tells *)

(** The inputs the validator accepts. *)
Lemma validate_input_accepts_iff langs text source_lang target_lang max_words :
  validate_input langs text source_lang target_lang max_words = (true, None)
  <-> strip text <> []
      /\ word_count text <= max_words
      /\ dict_contains langs source_lang = true
      /\ dict_contains langs target_lang = true
      /\ source_lang <> target_lang.
Proof.
  unfold validate_input, eqb. rewrite empty_text_test.
  destruct (is_empty (strip text)) eqn:Hblank.
  { apply is_empty_true in Hblank. split; [discriminate | tauto]. }
  apply is_empty_false in Hblank.
  destruct (max_words <? word_count text) eqn:Hcount.
  { apply Z.ltb_lt in Hcount. split; [discriminate | lia]. }
  apply Z.ltb_ge in Hcount.
  destruct (dict_contains langs source_lang);
    [|split; [discriminate | intros (_ & _ & ? & _); discriminate]].
  destruct (dict_contains langs target_lang);
    [|split; [discriminate | intros (_ & _ & _ & ? & _); discriminate]].
  cbn [negb]. case_bool_decide as Heq.
  - split; [discriminate | tauto].
  - split; auto.
Qed.

Section ResultFacts.
Context `{P : Platform}.

(** [run_backend] changes neither flag. *)
Lemma run_backend_flags text source_lang max_length num_beams (st : state) :
  _model_loaded
    (snd (run_backend text source_lang max_length num_beams st))
  = _model_loaded st
  /\ _initialized
       (snd (run_backend text source_lang max_length num_beams st))
     = _initialized st.
Proof.
  unfold run_backend, bind, tokenize, enter_no_grad, generate, decode.
  destruct (tokenizer_call _ _) as [[inputs|e1] w1]; [|auto].
  destruct TORCH_AVAILABLE; [|auto].
  cbn. destruct (model_generate _ _ _ _) as [[outputs|e2] w2]; [|auto].
  cbn. destruct (tokenizer_decode _ _) as [[out|e3] w3]; auto.
Qed.

(** Every answer of [translate] carries an integer [duration_ms]; it is
    either a success, with a translated text and no [error], or the
    three-field failure dictionary with a string as [error]. *)
Theorem translate_result_shape
    text source_lang target_lang max_length num_beams (st : state) :
  exists result st' duration_ms,
    translate text source_lang target_lang max_length num_beams st
    = (Ok result, st')
    /\ result !! "duration_ms" = Some (VInt duration_ms)
    /\ ((result !! "success" = Some (VBool true)
         /\ result !! "error" = None
         /\ exists translated_text,
              result !! "translated_text" = Some (VStr translated_text))
        \/ (exists msg,
              result = {[ "success" := VBool false; "error" := VStr msg;
                          "duration_ms" := VInt duration_ms ]})).
Proof.
  destruct (validate_input_shape (registry st) text source_lang target_lang 500)
    as [[msg Hmsg]|Hok].
  - rewrite (translate_invalid _ _ _ _ _ _ _ Hmsg).
    eexists _, _, _. split; [reflexivity|]. split; [reflexivity|].
    right. eexists. reflexivity.
  - destruct (_model_loaded st) eqn:Hloaded.
    + rewrite (translate_loaded _ _ _ _ _ _ Hok Hloaded).
      destruct (run_backend _ _ _ _ _) as [[out|e] st2].
      * cbv zeta. destruct (Qeq_bool _ 0).
        -- eexists _, _, _. split; [reflexivity|]. split; [reflexivity|].
           right. eexists. reflexivity.
        -- eexists _, _, _. split; [reflexivity|]. split; [reflexivity|].
           left. split; [reflexivity|]. split; [reflexivity|].
           eexists. reflexivity.
      * eexists _, _, _. split; [reflexivity|]. split; [reflexivity|].
        right. eexists. reflexivity.
    + rewrite (translate_not_loaded _ _ _ _ _ _ Hok Hloaded).
      eexists _, _, _. split; [reflexivity|]. split; [reflexivity|].
      right. eexists. reflexivity.
Qed.

(** A success tells that the model was loaded, that the text has between 1
    and 500 words, that both codes are in the table and differ, and that a
    whole millisecond at least was measured; the [word_count] it reports is
    the count the validator checked. *)
Theorem translate_success_requires
    text source_lang target_lang max_length num_beams (st : state)
    result st' :
  translate text source_lang target_lang max_length num_beams st
  = (Ok result, st') ->
  result !! "success" = Some (VBool true) ->
  _model_loaded st = true
  /\ 1 <= word_count text <= 500
  /\ result !! "word_count" = Some (VInt (word_count text))
  /\ dict_contains (registry st) source_lang = true
  /\ dict_contains (registry st) target_lang = true
  /\ source_lang <> target_lang
  /\ result !! "source_lang" = Some (VStr source_lang)
  /\ result !! "target_lang" = Some (VStr target_lang)
  /\ exists duration_ms,
       result !! "duration_ms" = Some (VInt duration_ms) /\ duration_ms <> 0.
Proof.
  destruct (validate_input_shape (registry st) text source_lang target_lang 500)
    as [[msg Hmsg]|Hok].
  { rewrite (translate_invalid _ _ _ _ _ _ _ Hmsg).
    intros [= <- _] Hs. discriminate Hs. }
  destruct (_model_loaded st) eqn:Hloaded.
  2:{ rewrite (translate_not_loaded _ _ _ _ _ _ Hok Hloaded).
      intros [= <- _] Hs. discriminate Hs. }
  rewrite (translate_loaded _ _ _ _ _ _ Hok Hloaded).
  destruct (run_backend _ _ _ _ _) as [[out|e] st2];
    [|intros [= <- _] Hs; discriminate Hs].
  cbv zeta.
  destruct (Qeq_bool _ 0) eqn:Hzero; [intros [= <- _] Hs; discriminate Hs|].
  intros [= <- _] _.
  apply validate_input_accepts_iff in Hok
    as (Hne & Hmax & Hsrc & Htgt & Hdiff).
  split; [reflexivity|]. split; [split; [apply word_count_pos; exact Hne | exact Hmax]|].
  split.
  { unfold word_count. rewrite split_strip. reflexivity. }
  split; [exact Hsrc|]. split; [exact Htgt|]. split; [exact Hdiff|].
  split; [reflexivity|]. split; [reflexivity|].
  eexists. split; [reflexivity|].
  intros Hd. rewrite Hd in Hzero. discriminate Hzero.
Qed.

End ResultFacts.

Lemma translate_success_requires_witness :
  1 <= word_count (lit "hello world") <= 500.
Proof.
  eapply (@translate_success_requires Stub.platform
            (lit "hello world") (lit "en") (lit "hi") 256 4
            (Stub.start true (Stub.World [0%Q; (1 # 2)%Q] None))).
  - reflexivity.
  - vm_compute. reflexivity.
Defined.

(** ** What the backend is asked *)

Section BackendFacts.
Context `{P : Platform}.

Lemma agree_with_env (st st' : state) e ev ev' :
  agree st st' -> agree (with_env st e ev) (with_env st' e ev').
Proof. intros (_ & Hh & Hl & Hi). repeat split; assumption. Qed.

Lemma respects_ret {A} (a : A) : respects (ret a).
Proof. intros st st' H. auto. Qed.

Lemma respects_raise {A} (e : exn) : respects (@raise _ A e).
Proof. intros st st' H. auto. Qed.

Lemma respects_bind {A B} (m : M A) (k : A -> M B) :
  respects m -> (forall a, respects (k a)) -> respects (bind m k).
Proof.
  intros Hm Hk st st' H. unfold bind.
  destruct (Hm st st' H) as [Hfst Hsnd].
  destruct (m st) as [[a|e] st1], (m st') as [[a'|e'] st1'];
    simpl in Hfst, Hsnd; try discriminate.
  - injection Hfst as <-. apply Hk. exact Hsnd.
  - injection Hfst as <-. auto.
Qed.

Lemma respects_tokenize s : respects (tokenize s).
Proof.
  intros st st' H. unfold tokenize. destruct H as (He & H'). rewrite <- He.
  destruct (tokenizer_call s (env st)) as [r w].
  split; [reflexivity|]. apply agree_with_env. split; [exact He | exact H'].
Qed.

Lemma respects_generate i ml nb : respects (generate i ml nb).
Proof.
  intros st st' H. unfold generate. destruct H as (He & H'). rewrite <- He.
  destruct (model_generate i ml nb (env st)) as [r w].
  split; [reflexivity|]. apply agree_with_env. split; [exact He | exact H'].
Qed.

Lemma respects_decode o : respects (decode o).
Proof.
  intros st st' H. unfold decode. destruct H as (He & H'). rewrite <- He.
  destruct (tokenizer_decode o (env st)) as [r w].
  split; [reflexivity|]. apply agree_with_env. split; [exact He | exact H'].
Qed.

Lemma respects_enter_no_grad : respects enter_no_grad.
Proof.
  unfold enter_no_grad.
  destruct TORCH_AVAILABLE; [apply respects_ret | apply respects_raise].
Qed.

(** What the backend answers depends on the outside world, not on what was
    recorded of the past. *)
Lemma respects_run_backend text source_lang max_length num_beams :
  respects (run_backend text source_lang max_length num_beams).
Proof.
  unfold run_backend.
  apply respects_bind; [apply respects_tokenize | intros inputs].
  apply respects_bind; [apply respects_enter_no_grad | intros _].
  apply respects_bind; [apply respects_generate | intros outputs].
  apply respects_decode.
Qed.

Lemma reading_agree (st st' : state) : agree st st' -> reading st = reading st'.
Proof. intros (He & _). unfold reading. rewrite He. reflexivity. Qed.

Lemma after_reading_agree (st st' : state) :
  agree st st' -> agree (after_reading st) (after_reading st').
Proof.
  intros H. unfold after_reading. destruct H as (He & H'). rewrite <- He.
  apply agree_with_env. split; [exact He | exact H'].
Qed.

(** The target language is checked and echoed, and never sent to the
    backend: for two targets that both pass validation, [translate] asks the
    same of the tokenizer and the model, leaves the outside world in the same
    state, and returns the same dictionary apart from the [target_lang]
    field. *)
Theorem translate_target_not_sent
    text source_lang target1 target2 max_length num_beams (st : state) :
  validate_input (registry st) text source_lang target1 500 = (true, None) ->
  validate_input (registry st) text source_lang target2 500 = (true, None) ->
  exists result1 st1 result2 st2,
    translate text source_lang target1 max_length num_beams st
    = (Ok result1, st1)
    /\ translate text source_lang target2 max_length num_beams st
       = (Ok result2, st2)
    /\ env st1 = env st2
    /\ result1 !! "translated_text" = result2 !! "translated_text"
    /\ delete "target_lang" result1 = delete "target_lang" result2.
Proof.
  intros Hv1 Hv2.
  destruct (_model_loaded st) eqn:Hloaded.
  2:{ rewrite (translate_not_loaded _ _ _ _ _ _ Hv1 Hloaded),
        (translate_not_loaded _ _ _ _ _ _ Hv2 Hloaded).
      eexists _, _, _, _. repeat split; reflexivity. }
  rewrite (translate_loaded _ _ _ _ _ _ Hv1 Hloaded),
    (translate_loaded _ _ _ _ _ _ Hv2 Hloaded).
  set (ev1 := EvTranslate text source_lang target1 max_length num_beams).
  set (ev2 := EvTranslate text source_lang target2 max_length num_beams).
  assert (Hstart : agree (after_reading (after_log ev1 st))
                         (after_reading (after_log ev2 st))).
  { apply after_reading_agree. repeat split. }
  destruct (respects_run_backend text source_lang max_length num_beams _ _ Hstart)
    as [Hout Hend].
  change (reading (after_log ev2 st)) with (reading (after_log ev1 st)).
  destruct (run_backend _ _ _ _ (after_reading (after_log ev1 st)))
    as [o1 sa], (run_backend _ _ _ _ (after_reading (after_log ev2 st)))
    as [o2 sb].
  simpl in Hout, Hend. subst o2.
  pose proof (reading_agree _ _ Hend) as Hr.
  pose proof (after_reading_agree _ _ Hend) as Hend'.
  pose proof (reading_agree _ _ Hend') as Hr'.
  pose proof (after_reading_agree _ _ Hend') as Hend''.
  rewrite <- Hr, <- Hr'.
  destruct o1 as [out|e].
  - cbv zeta. destruct (Qeq_bool _ 0).
    + eexists _, _, _, _. split; [reflexivity|]. split; [reflexivity|].
      split; [apply Hend''|]. split; reflexivity.
    + eexists _, _, _, _. split; [reflexivity|]. split; [reflexivity|].
      split; [apply Hend'|]. split; reflexivity.
  - eexists _, _, _, _. split; [reflexivity|]. split; [reflexivity|].
    split; [apply Hend'|]. split; reflexivity.
Qed.

End BackendFacts.

Lemma translate_target_not_sent_witness :
  validate_input SUPPORTED_LANGUAGES (lit "hello") (lit "en") (lit "hi") 500
  = (true, None)
  /\ validate_input SUPPORTED_LANGUAGES (lit "hello") (lit "en") (lit "ta") 500
     = (true, None)
  /\ exists result1 st1 result2 st2,
       @translate Stub.platform (lit "hello") (lit "en") (lit "hi") 256 4
         (Stub.start true (Stub.World [0%Q; (1 # 2)%Q] None))
       = (Ok result1, st1)
       /\ @translate Stub.platform (lit "hello") (lit "en") (lit "ta") 256 4
            (Stub.start true (Stub.World [0%Q; (1 # 2)%Q] None))
          = (Ok result2, st2)
       /\ env st1 = env st2
       /\ result1 !! "translated_text" = result2 !! "translated_text"
       /\ delete "target_lang" result1 = delete "target_lang" result2.
Proof.
  assert (H1 : validate_input
                 (registry (Stub.start true (Stub.World [0%Q; (1 # 2)%Q] None)))
                 (lit "hello") (lit "en") (lit "hi") 500 = (true, None))
    by (vm_compute; reflexivity).
  assert (H2 : validate_input
                 (registry (Stub.start true (Stub.World [0%Q; (1 # 2)%Q] None)))
                 (lit "hello") (lit "en") (lit "ta") 500 = (true, None))
    by (vm_compute; reflexivity).
  split; [exact H1|]. split; [exact H2|].
  exact (@translate_target_not_sent Stub.platform
           (lit "hello") (lit "en") (lit "hi") (lit "ta") 256 4 _ H1 H2).
Defined.

(** ** Loading and initialising *)

Section LoadingFacts.
Context `{P : Platform}.

(** What [load_model] does, case by case. *)
Lemma load_model_cases (st : state) :
  (_model_loaded st = true /\ load_model st = (Ok true, st))
  \/ (_model_loaded st = false
      /\ TRANSFORMERS_AVAILABLE && TORCH_AVAILABLE = false
      /\ load_model st = (Ok false, st))
  \/ (_model_loaded st = false
      /\ TRANSFORMERS_AVAILABLE && TORCH_AVAILABLE = true
      /\ exists w,
           model_dir_exists (env st) = (false, w)
           /\ load_model st = (Ok false, with_env st w EvDirExists))
  \/ (_model_loaded st = false
      /\ TRANSFORMERS_AVAILABLE && TORCH_AVAILABLE = true
      /\ exists w loaded st',
           model_dir_exists (env st) = (true, w)
           /\ load_model st = (Ok loaded, st')
           /\ _model_loaded st' = loaded
           /\ _initialized st' = _initialized st
           /\ existsb is_backend_event (trace st') = true).
Proof.
  unfold load_model, bind, get_model_loaded.
  destruct (_model_loaded st) eqn:Hloaded; [left; auto|right].
  destruct (TRANSFORMERS_AVAILABLE && TORCH_AVAILABLE); cbn [negb];
    [right | left; auto].
  unfold dir_exists.
  destruct (model_dir_exists (env st)) as [[|] w] eqn:Hdir; cbn [negb];
    [right | left; split; [reflexivity|]; split; [reflexivity|]; eauto].
  split; [reflexivity|]. split; [reflexivity|].
  unfold try_except, now, load_pretrained, set_model_loaded, ret.
  cbn [after_reading with_env env].
  destruct (from_pretrained _) as [[[]|e] w'] eqn:Hload.
  - eexists w, true, _. split; [reflexivity|]. split; [reflexivity|].
    split; [reflexivity|]. split; [reflexivity|].
    cbn [trace with_env after_reading]. rewrite !existsb_app. cbn.
    rewrite !orb_true_r. reflexivity.
  - eexists w, false, _. split; [reflexivity|]. split; [reflexivity|].
    split; [reflexivity|]. split; [reflexivity|].
    cbn [trace with_env after_reading]. rewrite !existsb_app. cbn.
    rewrite !orb_true_r. reflexivity.
Qed.

(** The flags after [load_model]. *)
Lemma load_model_flags (st : state) :
  exists loaded st',
    load_model st = (Ok loaded, st')
    /\ _model_loaded st' = loaded
    /\ _initialized st' = _initialized st.
Proof.
  destruct (load_model_cases st) as [H|[H|[H|H]]].
  - destruct H as (Hl & Hrun). eexists _, _. split; [exact Hrun|]. auto.
  - destruct H as (Hl & _ & Hrun). eexists _, _. split; [exact Hrun|]. auto.
  - destruct H as (Hl & _ & w & _ & Hrun).
    eexists _, _. split; [exact Hrun|]. auto.
  - destruct H as (Hl & _ & w & loaded & st' & _ & Hrun & H1 & H2 & _).
    eexists _, _. split; [exact Hrun|]. auto.
Qed.


(** An unloaded model stays unloaded, and nothing is asked of the libraries,
    when they are missing (then nothing happens at all) or when the model
    directory does not exist (then the directory is all that was looked
    at). *)
Theorem load_model_gives_up_early (st : state) :
  _model_loaded st = false ->
  (TRANSFORMERS_AVAILABLE && TORCH_AVAILABLE = false ->
   load_model st = (Ok false, st))
  /\ (TRANSFORMERS_AVAILABLE && TORCH_AVAILABLE = true ->
      forall w,
        model_dir_exists (env st) = (false, w) ->
        load_model st = (Ok false, with_env st w EvDirExists)).
Proof.
  intros Hl.
  destruct (load_model_cases st) as [H|[H|[H|H]]].
  - destruct H as (Hl' & _). congruence.
  - destruct H as (_ & Hdeps & Hrun). split; [auto | congruence].
  - destruct H as (_ & Hdeps & w & Hdir & Hrun).
    split; [congruence|]. intros _ w' Hdir'. congruence.
  - destruct H as (_ & Hdeps & w & loaded & st' & Hdir & _).
    split; [congruence|]. intros _ w' Hdir'. congruence.
Qed.

End LoadingFacts.

Lemma load_model_gives_up_early_witness :
  @load_model (Stub.custom true false true None)
    (@initial (Stub.custom true false true None) (Stub.World [] None))
  = (Ok false,
     @initial (Stub.custom true false true None) (Stub.World [] None)).
Proof.
  apply (@load_model_gives_up_early (Stub.custom true false true None));
    reflexivity.
Defined.

(** ** What is never undone *)

Section FlagFacts.
Context `{P : Platform}.

Lemma objects_ret {A} (a : A) : keeps_objects (ret a).
Proof. intros st. auto. Qed.

Lemma objects_raise {A} (e : exn) : keeps_objects (@raise _ A e).
Proof. intros st. auto. Qed.

Lemma objects_bind {A B} (m : M A) (k : A -> M B) :
  keeps_objects m -> (forall a, keeps_objects (k a)) -> keeps_objects (bind m k).
Proof.
  intros Hm Hk st. unfold bind. specialize (Hm st).
  destruct (m st) as [[a|e] st1]; simpl in Hm; [|exact Hm].
  destruct Hm as (H1 & H2 & H3 & H4), (Hk a st1) as (K1 & K2 & K3 & K4).
  repeat split; congruence.
Qed.

Lemma objects_try {A} (body : M A) (handler : exn -> M A) :
  keeps_objects body -> (forall e, keeps_objects (handler e)) ->
  keeps_objects (try_except body handler).
Proof.
  intros Hm Hk st. unfold try_except. specialize (Hm st).
  destruct (body st) as [[a|e] st1]; simpl in Hm; [exact Hm|].
  destruct Hm as (H1 & H2 & H3 & H4), (Hk e st1) as (K1 & K2 & K3 & K4).
  repeat split; congruence.
Qed.

Lemma objects_log ev : keeps_objects (log ev).
Proof. intros st. repeat split. Qed.

Lemma objects_now : keeps_objects now.
Proof. intros st. repeat split. Qed.

Lemma objects_get_registry : keeps_objects get_registry.
Proof. intros st. repeat split. Qed.

Lemma objects_get_model_loaded : keeps_objects get_model_loaded.
Proof. intros st. repeat split. Qed.

Lemma objects_truediv a b : keeps_objects (truediv a b).
Proof. unfold truediv. destruct (Qeq_bool b 0); intros st; repeat split. Qed.

Lemma objects_run_backend text source_lang max_length num_beams :
  keeps_objects (run_backend text source_lang max_length num_beams).
Proof.
  intros st.
  destruct (run_backend_flags text source_lang max_length num_beams st)
    as [Hl Hi].
  destruct (keeps_run_backend text source_lang max_length num_beams st)
    as [Hh He].
  auto.
Qed.

Lemma objects_translate text source_lang target_lang max_length num_beams :
  keeps_objects (translate text source_lang target_lang max_length num_beams).
Proof.
  unfold translate.
  apply objects_bind; [apply objects_log | intros _].
  apply objects_bind; [apply objects_now | intros start_time].
  apply objects_bind; [apply objects_get_registry | intros langs].
  destruct (validate_input _ _ _ _ _) as [is_valid error_msg].
  destruct is_valid; cbn [negb].
  - apply objects_bind; [apply objects_get_model_loaded | intros loaded].
    destruct loaded; cbn [negb].
    + apply objects_try.
      * apply objects_bind; [apply objects_run_backend | intros out].
        apply objects_bind; [apply objects_now | intros t].
        apply objects_bind; [apply objects_truediv | intros seconds].
        apply objects_bind; [apply objects_truediv | intros speed].
        apply objects_ret.
      * intros e. apply objects_bind; [apply objects_now | intros t].
        apply objects_ret.
    + apply objects_bind; [apply objects_now | intros t]. apply objects_ret.
  - apply objects_bind; [apply objects_now | intros t]. apply objects_ret.
Qed.

Lemma objects_batch_translate texts source_lang target_lang :
  keeps_objects (batch_translate texts source_lang target_lang).
Proof.
  unfold batch_translate. generalize (@nil dict).
  induction texts as [|text rest IH]; intros results; simpl.
  - apply objects_ret.
  - apply objects_bind; [apply objects_translate | intros result; apply IH].
Qed.

(** Neither [translate] nor [batch_translate] loads the model, initialises
    the wrapper or touches a dict object: both flags, the store and the
    references held by callers are after the call what they were before. *)
Theorem translate_changes_no_object
    text texts source_lang target_lang max_length num_beams (st : state) :
  let st1 :=
    snd (translate text source_lang target_lang max_length num_beams st) in
  let st2 := snd (batch_translate texts source_lang target_lang st) in
  (_model_loaded st1 = _model_loaded st
   /\ _initialized st1 = _initialized st
   /\ heap st1 = heap st /\ exposed st1 = exposed st)
  /\ (_model_loaded st2 = _model_loaded st
      /\ _initialized st2 = _initialized st
      /\ heap st2 = heap st /\ exposed st2 = exposed st).
Proof.
  split; [apply objects_translate | apply objects_batch_translate].
Qed.

Lemma advances_refl (st : state) : advances st st.
Proof. repeat split; auto. Qed.

Lemma advances_trans (st1 st2 st3 : state) :
  advances st1 st2 -> advances st2 st3 -> advances st1 st3.
Proof. intros (A1 & A2 & A3) (B1 & B2 & B3). repeat split; auto. Qed.

Lemma keeps_objects_advances {A} (m : M A) (st : state) :
  keeps_objects m -> advances st (snd (m st)).
Proof.
  intros Hm. destruct (Hm st) as (Hl & Hi & _).
  unfold advances, coherent. rewrite Hl, Hi. auto.
Qed.

Lemma load_model_advances (st : state) : advances st (snd (load_model st)).
Proof.
  destruct (load_model_flags st) as (loaded & st' & Hrun & Hflag & Hinit).
  rewrite Hrun. cbn [snd].
  destruct (load_model_cases st) as [H|[H|[H|H]]].
  - destruct H as (_ & E). rewrite E in Hrun. injection Hrun as <- <-.
    apply advances_refl.
  - destruct H as (Hl & _). unfold advances, coherent. rewrite Hinit.
    split; [congruence|]. split; [auto|]. intros Hc Hi. specialize (Hc Hi).
    congruence.
  - destruct H as (Hl & _). unfold advances, coherent. rewrite Hinit.
    split; [congruence|]. split; [auto|]. intros Hc Hi. specialize (Hc Hi).
    congruence.
  - destruct H as (Hl & _). unfold advances, coherent. rewrite Hinit.
    split; [congruence|]. split; [auto|]. intros Hc Hi. specialize (Hc Hi).
    congruence.
Qed.

(** What [initialize] does, case by case. *)
Lemma initialize_cases (st : state) :
  (_initialized st = true /\ initialize st = (Ok true, st))
  \/ (_initialized st = false
      /\ exists loaded st1,
           load_model st = (Ok loaded, st1)
           /\ _model_loaded st1 = loaded
           /\ _initialized st1 = false
           /\ initialize st
              = (Ok loaded,
                 if loaded
                 then State (env st1) (trace st1) (heap st1) (exposed st1)
                            (_model_loaded st1) true
                 else st1)).
Proof.
  unfold initialize, bind, get_initialized.
  destruct (_initialized st) eqn:Hi; [left; auto|right].
  split; [reflexivity|].
  destruct (load_model_flags st) as (loaded & st1 & Hrun & Hflag & Hinit).
  exists loaded, st1. rewrite Hrun.
  split; [reflexivity|]. split; [exact Hflag|]. split; [congruence|].
  destruct loaded; reflexivity.
Qed.

Lemma initialize_advances (st : state) : advances st (snd (initialize st)).
Proof.
  destruct (initialize_cases st) as [(Hi & ->)|(Hi & loaded & st1 & Hrun & Hl & Hi1 & ->)].
  - apply advances_refl.
  - pose proof (load_model_advances st) as Hadv. rewrite Hrun in Hadv.
    cbn [snd] in *. eapply advances_trans; [exact Hadv|].
    destruct loaded; [|apply advances_refl].
    unfold advances, coherent. cbn. repeat split; auto.
Qed.


End FlagFacts.

(** ** The envelope and the model *)

Section EnvelopeFacts.
Context `{P : Platform}.

(** How a request is answered: by the envelope on the spot, by the envelope
    after an initialisation that failed, or by [translate] in a state where
    the wrapper is initialised. *)
Lemma handle_translate_request_delegates request_data (st : state) :
  (exists error,
     handle_translate_request request_data st
     = (Ok (envelope_error error), st)
     /\ (error = msg_text_required \/ error = msg_langs_required
         \/ exists v attr, error = exn_msg (AttributeError v attr)))
  \/ (exists st1,
        _initialized st = false
        /\ initialize st = (Ok false, st1)
        /\ handle_translate_request request_data st
           = (Ok (envelope_error msg_init_failed), st1))
  \/ (exists text source_lang target_lang st1,
        ((_initialized st = true /\ st1 = st)
         \/ (_initialized st = false /\ initialize st = (Ok true, st1)))
        /\ handle_translate_request request_data st
           = translate text source_lang target_lang 256 4 st1).
Proof.
  destruct (dict_get request_data "text" (VStr [])) as [| | | |text| |] eqn:Ht;
    try (left; eexists; split;
         [unfold handle_translate_request; rewrite Ht; reflexivity|];
         right; right; eauto).
  destruct (dict_get request_data "source_lang" (VStr []))
    as [| | | |source_lang| |] eqn:Hs;
    try (left; eexists; split;
         [unfold handle_translate_request; rewrite Ht, Hs; reflexivity|];
         right; right; eauto).
  destruct (dict_get request_data "target_lang" (VStr []))
    as [| | | |target_lang| |] eqn:Hg;
    try (left; eexists; split;
         [unfold handle_translate_request; rewrite Ht, Hs, Hg; reflexivity|];
         right; right; eauto).
  rewrite (handle_translate_request_typed _ st _ _ _ Ht Hs Hg).
  destruct (is_empty (strip text)).
  { left. eexists. split; [reflexivity|]. auto. }
  destruct (is_empty (str_lower source_lang) || is_empty (str_lower target_lang)).
  { left. eexists. split; [reflexivity|]. auto. }
  destruct (_initialized st) eqn:Hi.
  - right. right. eexists _, _, _, st. split; [auto | reflexivity].
  - destruct (returns_initialize st) as (ready & st2 & E).
    destruct (initialize st) as [[[|]|e] st1]; [| |discriminate E].
    + right. right. eexists _, _, _, _. split; [right; eauto | reflexivity].
    + right. left. eexists. split; [reflexivity|]. split; reflexivity.
Qed.

Lemma handle_translate_request_advances request_data (st : state) :
  advances st (snd (handle_translate_request request_data st)).
Proof.
  destruct (handle_translate_request_delegates request_data st)
    as [(error & -> & _)|[(st1 & Hi & Hinit & ->)
       |(text & s & t & st1 & Hst1 & ->)]].
  - apply advances_refl.
  - pose proof (initialize_advances st) as H. rewrite Hinit in H. exact H.
  - eapply advances_trans; [|apply keeps_objects_advances, objects_translate].
    destruct Hst1 as [(_ & ->)|(_ & Hinit)]; [apply advances_refl|].
    pose proof (initialize_advances st) as H. rewrite Hinit in H. exact H.
Qed.

Lemma advances_same_flags (st st' : state) :
  _model_loaded st' = _model_loaded st ->
  _initialized st' = _initialized st ->
  advances st st'.
Proof.
  intros Hl Hi. unfold advances, coherent. rewrite Hl, Hi. auto.
Qed.

Lemma caller_update_advances r f (st : state) :
  advances st (caller_update r f st).
Proof.
  unfold caller_update.
  destruct (bool_decide _); apply advances_same_flags; reflexivity.
Qed.

Lemma perform_advances c (st : state) : advances st (perform c st).
Proof.
  destruct c; unfold perform; try apply caller_update_advances.
  - apply load_model_advances.
  - apply keeps_objects_advances, objects_translate.
  - apply keeps_objects_advances, objects_batch_translate.
  - apply advances_same_flags; reflexivity.
  - apply initialize_advances.
  - apply handle_translate_request_advances.
  - apply advances_same_flags; reflexivity.
Qed.

Lemma reachable_is_coherent (st : state) : reachable st -> coherent st.
Proof.
  induction 1 as [e|c st _ IH].
  - intros H. discriminate H.
  - apply (perform_advances c st). exact IH.
Qed.

(** No call of the two classes, and nothing a caller does to a dict it was
    given, unloads a loaded model or undoes the initialisation of the
    wrapper; and in every reachable state, a wrapper that is initialised has
    a model that is loaded. *)
Theorem flags_only_rise c (st : state) :
  (_model_loaded st = true -> _model_loaded (perform c st) = true)
  /\ (_initialized st = true -> _initialized (perform c st) = true)
  /\ (reachable st -> _initialized st = true -> _model_loaded st = true).
Proof.
  destruct (perform_advances c st) as (Hl & Hi & _).
  split; [exact Hl|]. split; [exact Hi|]. apply reachable_is_coherent.
Qed.




End EnvelopeFacts.


(** ** The translate route *)

Section RouteFacts.
Context `{P : Platform}.

(** The [success] field of an answer of [translate] is a boolean, and it is
    [False] exactly when there is an [error], which is then a string. *)
Lemma translate_success_field
    text source_lang target_lang max_length num_beams (st : state)
    result st' :
  translate text source_lang target_lang max_length num_beams st
  = (Ok result, st') ->
  (result !! "success" = Some (VBool true) /\ result !! "error" = None)
  \/ (result !! "success" = Some (VBool false)
      /\ exists msg, result !! "error" = Some (VStr msg)).
Proof.
  destruct (validate_input_shape (registry st) text source_lang target_lang 500)
    as [[msg Hmsg]|Hok].
  { rewrite (translate_invalid _ _ _ _ _ _ _ Hmsg).
    intros [= <- _]. right. split; [reflexivity | eexists; reflexivity]. }
  destruct (_model_loaded st) eqn:Hloaded.
  2:{ rewrite (translate_not_loaded _ _ _ _ _ _ Hok Hloaded).
      intros [= <- _]. right. split; [reflexivity | eexists; reflexivity]. }
  rewrite (translate_loaded _ _ _ _ _ _ Hok Hloaded).
  destruct (run_backend _ _ _ _ _) as [[out|e] st2].
  - cbv zeta. destruct (Qeq_bool _ 0); intros [= <- _].
    + right. split; [reflexivity | eexists; reflexivity].
    + left. split; reflexivity.
  - intros [= <- _]. right. split; [reflexivity | eexists; reflexivity].
Qed.

Lemma api_translate_unfold data (st : state) result st' :
  handle_translate_request data st = (Ok result, st') ->
  api_translate data st
  = (Ok (result,
         if truthy (heap st') (dict_get result "success" VNone)
         then 200 else 400),
     st').
Proof.
  intros H. unfold api_translate, try_except, bind, succeeded, ret.
  rewrite H. reflexivity.
Qed.

(** The translate route answers every JSON object, with status 200 and no
    [error] when the answer reports a success, and with status 400 and an
    error message in every other case: a refused input, a model that could
    not be initialised, and also a fault of the tokenizer or the model.  It
    never answers 500 of its own. *)
Theorem api_translate_status data (st : state) :
  exists result status st',
    api_translate data st = (Ok (result, status), st')
    /\ handle_translate_request data st = (Ok result, st')
    /\ ((status = 200
         /\ result !! "success" = Some (VBool true)
         /\ result !! "error" = None)
        \/ (status = 400
            /\ result !! "success" = Some (VBool false)
            /\ exists msg, result !! "error" = Some (VStr msg))).
Proof.
  destruct (handle_translate_request_delegates data st)
    as [(error & Hrun & _)|[(st1 & _ & _ & Hrun)
       |(text & s & t & st1 & _ & Hrun)]].
  - eexists _, _, _. split; [apply (api_translate_unfold _ _ _ _ Hrun)|].
    split; [exact Hrun|]. right.
    split; [reflexivity|]. split; [reflexivity | eexists; reflexivity].
  - eexists _, _, _. split; [apply (api_translate_unfold _ _ _ _ Hrun)|].
    split; [exact Hrun|]. right.
    split; [reflexivity|]. split; [reflexivity | eexists; reflexivity].
  - destruct (translate_total text s t 256 4 st1) as (result & st' & Ht).
    rewrite Ht in Hrun.
    eexists _, _, _. split; [apply (api_translate_unfold _ _ _ _ Hrun)|].
    split; [exact Hrun|].
    destruct (translate_success_field _ _ _ _ _ _ _ _ Ht)
      as [(Hs & He)|(Hs & He)]; unfold dict_get; rewrite Hs; cbn [truthy].
    + left. auto.
    + right. auto.
Qed.

(** Where the libraries are missing, the hook and the route together answer
    a well-formed request with status 400 and "Failed to initialize
    translation model", and leave everything as it was: neither the model
    directory nor the tokenizer nor the model is touched. *)
Theorem api_translate_without_libraries
    data (st : state) text source_lang target_lang :
  TRANSFORMERS_AVAILABLE && TORCH_AVAILABLE = false ->
  _model_loaded st = false ->
  _initialized st = false ->
  dict_get data "text" (VStr []) = VStr text ->
  dict_get data "source_lang" (VStr []) = VStr source_lang ->
  dict_get data "target_lang" (VStr []) = VStr target_lang ->
  strip text <> [] ->
  str_lower source_lang <> [] ->
  str_lower target_lang <> [] ->
  bind before_request (fun _ => api_translate data) st
  = (Ok ({[ "success" := VBool false;
            "error" := VStr (lit "Failed to initialize translation model") ]},
         400),
     st).
Proof.
  intros Hdeps Hl Hi Ht Hs Hg Htext Hsrc Htgt.
  assert (Hload : load_model st = (Ok false, st)).
  { destruct (load_model_cases st) as [H|[H|[H|H]]].
    - destruct H as (Hl' & _). congruence.
    - destruct H as (_ & _ & Hrun). exact Hrun.
    - destruct H as (_ & Hdeps' & _). congruence.
    - destruct H as (_ & Hdeps' & _). congruence. }
  assert (Hinit : initialize st = (Ok false, st)).
  { unfold initialize, bind, get_initialized. rewrite Hi, Hload. reflexivity. }
  assert (Hhandle : handle_translate_request data st
                    = (Ok (envelope_error msg_init_failed), st)).
  { rewrite (handle_translate_request_typed _ st _ _ _ Ht Hs Hg).
    apply is_empty_false in Htext, Hsrc, Htgt.
    rewrite Htext, Hsrc, Htgt, Hi, Hinit. reflexivity. }
  unfold before_request, bind at 1 2, get_initialized.
  rewrite Hi. cbn [negb]. unfold bind at 1. rewrite Hinit.
  unfold ret at 1.
  rewrite (api_translate_unfold _ _ _ _ Hhandle). reflexivity.
Qed.

End RouteFacts.

Lemma api_translate_without_libraries_witness :
  @bind (Stub.custom false false true None) _ _
    before_request (fun _ => api_translate Stub.hello_request)
    (@initial (Stub.custom false false true None) (Stub.World [] None))
  = (Ok ({[ "success" := VBool false;
            "error" := VStr (lit "Failed to initialize translation model") ]},
         400),
     @initial (Stub.custom false false true None) (Stub.World [] None)).
Proof.
  apply (@api_translate_without_libraries (Stub.custom false false true None)
           Stub.hello_request _
           (lit " hello world ") (lit "EN") (lit "hi"));
    try reflexivity; vm_compute; discriminate.
Defined.

(** ** Batches and copies *)

Section BatchFacts.
Context `{P : Platform}.

Lemma batch_run_functional source_lang target_lang texts (st : state)
    results1 st1 results2 st2 :
  batch_run source_lang target_lang texts st results1 st1 ->
  batch_run source_lang target_lang texts st results2 st2 ->
  results1 = results2 /\ st1 = st2.
Proof.
  intros H1. revert results2 st2.
  induction H1 as [st|text rest st result sa results sb Ht _ IH];
    intros results2 st2 H2; inversion H2; subst.
  - auto.
  - match goal with
    | H : translate _ _ _ _ _ _ = (Ok ?r, ?s) |- _ =>
        rewrite Ht in H; injection H as <- <-
    end.
    match goal with
    | H : batch_run _ _ _ _ _ _ |- _ => destruct (IH _ _ H) as [-> ->]
    end.
    auto.
Qed.

Lemma batch_loop_app texts1 texts2 source_lang target_lang :
  forall results (st : state),
    batch_loop (texts1 ++ texts2) source_lang target_lang results st
    = match batch_loop texts1 source_lang target_lang results st with
      | (Ok results1, st1) =>
          batch_loop texts2 source_lang target_lang results1 st1
      | (Raised e, st1) => (Raised e, st1)
      end.
Proof.
  induction texts1 as [|text rest IH]; intros results st; [reflexivity|].
  cbn [app batch_loop]. unfold bind.
  destruct (translate text source_lang target_lang 256 4 st) as [[result|e] st1];
    [apply IH | reflexivity].
Qed.

(** Translating a list in two parts, one after the other, gives the results
    of translating it at once: the results of the first part followed by
    those of the second, and the same final state. *)
Theorem batch_translate_app texts1 texts2 source_lang target_lang (st : state) :
  exists results1 st1 results2 st2,
    batch_translate texts1 source_lang target_lang st = (Ok results1, st1)
    /\ batch_translate texts2 source_lang target_lang st1 = (Ok results2, st2)
    /\ batch_translate (texts1 ++ texts2) source_lang target_lang st
       = (Ok (results1 ++ results2), st2).
Proof.
  unfold batch_translate.
  destruct (batch_loop_run texts1 source_lang target_lang [] st)
    as (r1 & st1 & Hloop1 & _ & _).
  destruct (batch_loop_run texts2 source_lang target_lang [] st1)
    as (r2 & st2 & Hloop2 & Hrun2 & _).
  destruct (batch_loop_run texts2 source_lang target_lang ([] ++ r1) st1)
    as (r2' & st2' & Hloop2' & Hrun2' & _).
  destruct (batch_run_functional _ _ _ _ _ _ _ _ Hrun2 Hrun2') as [<- <-].
  exists r1, st1, r2, st2. split; [exact Hloop1|]. split; [exact Hloop2|].
  rewrite batch_loop_app, Hloop1. exact Hloop2'.
Qed.

(** Every call of [get_supported_languages] returns a dict of its own: two
    calls in a row give two different objects, both holding the table, and
    what a caller does to the first is not seen in the second. *)
Theorem get_supported_languages_each_time (st : state) :
  registry_intact st ->
  exists r1 st1 r2 st2,
    get_supported_languages st = (Ok r1, st1)
    /\ get_supported_languages st1 = (Ok r2, st2)
    /\ r1 <> r2
    /\ heap st2 !! r1 = Some SUPPORTED_LANGUAGES
    /\ heap st2 !! r2 = Some SUPPORTED_LANGUAGES
    /\ forall f,
         heap (caller_update r1 f st2) !! r1 = Some (f SUPPORTED_LANGUAGES)
         /\ heap (caller_update r1 f st2) !! r2 = Some SUPPORTED_LANGUAGES.
Proof.
  intros Hst.
  destruct (dict_copy_fresh st Hst) as [Hcopy1 _].
  pose proof (get_supported_languages_intact st Hst) as Hst1.
  unfold get_supported_languages in *. rewrite Hcopy1 in Hst1 |- *.
  cbn [snd] in Hst1.
  set (r1 := fresh (dom (heap st))) in *.
  set (st1 := State (env st) (trace st) (<[r1:=SUPPORTED_LANGUAGES]> (heap st))
                    ({[r1]} ∪ exposed st) (_model_loaded st) (_initialized st))
    in *.
  destruct (dict_copy_fresh st1 Hst1) as [Hcopy2 _].
  set (r2 := fresh (dom (heap st1))) in *.
  assert (Hne : r1 <> r2).
  { intros Heq. apply (is_fresh (dom (heap st1))). fold r2. rewrite <- Heq.
    eapply elem_of_dom_2. unfold st1. cbn [heap]. apply lookup_insert_eq. }
  eexists r1, st1, r2, _. split; [reflexivity|]. split; [exact Hcopy2|].
  split; [exact Hne|]. unfold st1. cbn [heap exposed]. split.
  { rewrite lookup_insert_ne by congruence. apply lookup_insert_eq. }
  split; [apply lookup_insert_eq|].
  intros f. unfold caller_update. cbn [exposed heap].
  assert (Hin : r1 ∈ ({[r2]} ∪ ({[r1]} ∪ exposed st) : gset loc)).
  { apply elem_of_union. right. apply elem_of_union. left.
    apply elem_of_singleton. reflexivity. }
  rewrite (bool_decide_eq_true_2 _ Hin).
  cbn [heap]. split.
  - rewrite lookup_insert_eq. f_equal. f_equal.
    rewrite lookup_total_insert_ne by congruence.
    apply lookup_total_insert_eq.
  - rewrite lookup_insert_ne by exact Hne. apply lookup_insert_eq.
Qed.

End BatchFacts.

Lemma get_supported_languages_each_time_witness :
  exists r1 st1 r2 st2,
    @get_supported_languages Stub.platform
      (@initial Stub.platform (Stub.World [] None)) = (Ok r1, st1)
    /\ get_supported_languages st1 = (Ok r2, st2)
    /\ r1 <> r2.
Proof.
  destruct (@get_supported_languages_each_time Stub.platform
              (@initial Stub.platform (Stub.World [] None)))
    as (r1 & st1 & r2 & st2 & H1 & H2 & Hne & _).
  - split; [reflexivity | apply not_elem_of_empty].
  - exists r1, st1, r2, st2. auto.
Defined.

(** ** get_model_info *)

Section ModelInfoFacts.
Context `{P : Platform}.
Variable model_dir : str.
Variable directory_size : Env -> outcome Z * Env.
Variable round_2 : Q -> Q.


(** The two fields that tell of the language table. *)
Lemma get_model_info_table (st : state) :
  exists info st',
    get_model_info model_dir directory_size round_2 st = (Ok info, st')
    /\ info !! "supported_languages" = Some (VInt (dict_len (registry st)))
    /\ info !! "languages" = Some (keys_list (registry st)).
Proof.
  unfold get_model_info, bind, get_model_loaded, get_registry, dir_exists.
  destruct (model_dir_exists (env st)) as [[|] w].
  - unfold try_except, walk_size. cbn [env with_env].
    destruct (directory_size w) as [[size|e] w1];
      eexists _, _; (split; [reflexivity|]); split; reflexivity.
  - eexists _, _. split; [reflexivity|]. split; reflexivity.
Qed.

(** In every reachable state [get_model_info] reports 22 supported
    languages and lists their codes in the order of the class body, from
    ["hi"] to ["en"]. *)
Theorem get_model_info_languages (st : state) :
  reachable st ->
  exists info st',
    get_model_info model_dir directory_size round_2 st = (Ok info, st')
    /\ info !! "supported_languages" = Some (VInt 22)
    /\ info !! "languages"
       = Some (VList (map (fun code => VStr (lit code))
                 ["hi"; "ta"; "te"; "kn"; "ml"; "mr"; "gu"; "bn"; "pa"; "or";
                  "as"; "ur"; "sa"; "kok"; "mni"; "mai"; "sd"; "ks"; "dg";
                  "bodo"; "sat"; "en"]%string)).
Proof.
  intros Hreach. destruct (reachable_intact st Hreach) as [Hreg _].
  destruct (get_model_info_table st) as (info & st' & Hrun & Hn & Hl).
  exists info, st'. split; [exact Hrun|].
  unfold registry in Hn, Hl.
  rewrite (lookup_total_correct _ _ _ Hreg) in Hn, Hl.
  split; [exact Hn | exact Hl].
Qed.

End ModelInfoFacts.

Lemma get_model_info_languages_witness :
  exists info st',
    @get_model_info Stub.platform (lit "models/translation/IndicTrans2")
      (fun w => (Ok 0, w)) (fun x => x)
      (@initial Stub.platform (Stub.World [] None))
    = (Ok info, st')
    /\ info !! "supported_languages" = Some (VInt 22).
Proof.
  destruct (@get_model_info_languages Stub.platform
              (lit "models/translation/IndicTrans2")
              (fun w => (Ok 0, w)) (fun x => x)
              (@initial Stub.platform (Stub.World [] None))
              (reachable_initial _))
    as (info & st' & Hrun & Hn & _).
  exists info, st'. auto.
Defined.

(** ** The model manager *)

Section ManagerFacts.
Context `{P : Platform}.

(** [ModelManager.translate] never raises.  Without a model or a tokenizer,
    or with a code that is not in the table, it returns [None] and does
    nothing.  It returns a text exactly when model and tokenizer are set,
    both codes are in the table and the backend returns that text: the text
    is not looked at, and the two codes may be the same. *)
Theorem manager_translate_result
    self langs text source_lang target_lang max_length (st : state) :
  (exists result st',
     ModelManager.translate self langs text source_lang target_lang
       max_length st = (Ok result, st'))
  /\ (ModelManager.model self = false \/ ModelManager.tokenizer self = false
      \/ dict_contains langs source_lang = false
      \/ dict_contains langs target_lang = false ->
      ModelManager.translate self langs text source_lang target_lang
        max_length st = (Ok None, st))
  /\ (forall translated st',
        ModelManager.translate self langs text source_lang target_lang
          max_length st = (Ok (Some translated), st')
        <-> ModelManager.model self = true
            /\ ModelManager.tokenizer self = true
            /\ dict_contains langs source_lang = true
            /\ dict_contains langs target_lang = true
            /\ ModelManager.run_backend text source_lang max_length st
               = (Ok translated, st')).
Proof.
  unfold ModelManager.translate.
  destruct (ModelManager.model self), (ModelManager.tokenizer self);
    cbn [negb orb];
    try (split; [eexists _, _; reflexivity|];
         split; [reflexivity|];
         intros translated st'; split;
         [discriminate | intros (? & ? & _); discriminate]).
  destruct (dict_contains langs source_lang); cbn [negb];
    [|split; [eexists _, _; reflexivity|];
      split; [reflexivity|];
      intros translated st'; split;
      [discriminate | intros (_ & _ & ? & _); discriminate]].
  destruct (dict_contains langs target_lang); cbn [negb];
    [|split; [eexists _, _; reflexivity|];
      split; [reflexivity|];
      intros translated st'; split;
      [discriminate | intros (_ & _ & _ & ? & _); discriminate]].
  unfold try_except, bind, ret.
  destruct (ModelManager.run_backend text source_lang max_length st)
    as [[out|e] st1].
  - split; [eexists _, _; reflexivity|].
    split; [intros [H|[H|[H|H]]]; discriminate H|].
    intros translated st'. split.
    + intros [= <- <-]. auto.
    + intros (_ & _ & _ & _ & [= <- <-]). reflexivity.
  - split; [eexists _, _; reflexivity|].
    split; [intros [H|[H|[H|H]]]; discriminate H|].
    intros translated st'. split.
    + discriminate.
    + intros (_ & _ & _ & _ & H). discriminate H.
Qed.

(** With torch available the manager asks the backend what the inference
    wrapper asks with four beams. *)
Lemma run_backend_manager text source_lang max_length (st : state) :
  TORCH_AVAILABLE = true ->
  run_backend text source_lang max_length 4 st
  = ModelManager.run_backend text source_lang max_length st.
Proof.
  intros Ht.
  unfold run_backend, ModelManager.run_backend, enter_no_grad, bind, tokenize.
  rewrite Ht. destruct (tokenizer_call _ _) as [[inputs|e] w]; reflexivity.
Qed.

Lemma respects_manager_backend text source_lang max_length :
  respects (ModelManager.run_backend text source_lang max_length).
Proof.
  unfold ModelManager.run_backend.
  apply respects_bind; [apply respects_tokenize | intros inputs].
  apply respects_bind; [apply respects_generate | intros outputs].
  apply respects_decode.
Qed.

(** The two translators agree: a text that the inference wrapper has
    translated with four beams is the text a loaded manager returns for the
    same request, called in the outside world in which the wrapper called the
    backend (the one its reading of the start time left). *)
Theorem manager_agrees_with_inference
    self text source_lang target_lang max_length (st : state)
    result st' translated :
  translate text source_lang target_lang max_length 4 st = (Ok result, st') ->
  result !! "translated_text" = Some (VStr translated) ->
  ModelManager.model self = true ->
  ModelManager.tokenizer self = true ->
  fst (ModelManager.translate self (registry st) text source_lang target_lang
         max_length (after_reading st))
  = Ok (Some translated).
Proof.
  intros Hrun Htext Hmodel Htok.
  destruct (validate_input_shape (registry st) text source_lang target_lang 500)
    as [[msg Hmsg]|Hok].
  { rewrite (translate_invalid _ _ _ _ _ _ _ Hmsg) in Hrun.
    injection Hrun as <- _. discriminate Htext. }
  destruct (_model_loaded st) eqn:Hloaded.
  2:{ rewrite (translate_not_loaded _ _ _ _ _ _ Hok Hloaded) in Hrun.
      injection Hrun as <- _. discriminate Htext. }
  rewrite (translate_loaded _ _ _ _ _ _ Hok Hloaded) in Hrun.
  apply validate_input_accepts_iff in Hok as (_ & _ & Hsrc & Htgt & _).
  unfold ModelManager.translate. rewrite Hmodel, Htok, Hsrc, Htgt.
  cbn [negb orb]. unfold try_except, bind.
  set (st1 := after_reading
                (after_log
                   (EvTranslate text source_lang target_lang max_length 4) st))
    in *.
  assert (Hagree : agree st1 (after_reading st)) by (repeat split).
  destruct TORCH_AVAILABLE eqn:Htorch.
  - rewrite (run_backend_manager _ _ _ _ Htorch) in Hrun.
    destruct (respects_manager_backend text source_lang max_length _ _ Hagree)
      as [Hout _].
    destruct (ModelManager.run_backend text source_lang max_length st1)
      as [[out|e] st2],
      (ModelManager.run_backend text source_lang max_length (after_reading st))
      as [o st3].
    + cbn [fst] in Hout. subst o.
      cbv zeta in Hrun. destruct (Qeq_bool _ 0).
      * injection Hrun as <- _. discriminate Htext.
      * injection Hrun as <- _. injection Htext as <-. reflexivity.
    + injection Hrun as <- _. discriminate Htext.
  - exfalso. revert Hrun.
    unfold run_backend, bind, tokenize, enter_no_grad. rewrite Htorch.
    destruct (tokenizer_call _ _) as [[inputs|e] w];
      intros [= <- _]; discriminate Htext.
Qed.

End ManagerFacts.

Lemma manager_agrees_with_inference_witness :
  fst (@ModelManager.translate Stub.platform
         (ModelManager.Manager true true) SUPPORTED_LANGUAGES
         (lit "hello world") (lit "en") (lit "hi") 256
         (after_reading (Stub.start true (Stub.World [0%Q; (1 # 2)%Q] None))))
  = Ok (Some (lit "en: hello world")).
Proof.
  apply (@manager_agrees_with_inference Stub.platform
           (ModelManager.Manager true true)
           (lit "hello world") (lit "en") (lit "hi") 256
           (Stub.start true (Stub.World [0%Q; (1 # 2)%Q] None))
           (match fst (@translate Stub.platform (lit "hello world")
                         (lit "en") (lit "hi") 256 4
                         (Stub.start true
                            (Stub.World [0%Q; (1 # 2)%Q] None))) with
            | Ok r => r | Raised _ => ∅ end)
           (snd (@translate Stub.platform (lit "hello world")
                   (lit "en") (lit "hi") 256 4
                   (Stub.start true (Stub.World [0%Q; (1 # 2)%Q] None)))));
    vm_compute; reflexivity.
Defined.

Section ManagerBatchFacts.
Context `{P : Platform}.

Lemma manager_translate_returns
    self langs text source_lang target_lang max_length (st : state) :
  exists result st',
    ModelManager.translate self langs text source_lang target_lang
      max_length st = (Ok result, st').
Proof.
  unfold ModelManager.translate.
  destruct (negb _ || negb _); [eexists _, _; reflexivity|].
  destruct (negb _); [eexists _, _; reflexivity|].
  destruct (negb _); [eexists _, _; reflexivity|].
  unfold try_except, bind, ret.
  destruct (ModelManager.run_backend _ _ _ _) as [[out|e] st1];
    eexists _, _; reflexivity.
Qed.

Lemma manager_translate_refuses
    self langs text source_lang target_lang max_length (st : state) :
  negb (ModelManager.model self) || negb (ModelManager.tokenizer self)
  || negb (dict_contains langs source_lang)
  || negb (dict_contains langs target_lang) = true ->
  ModelManager.translate self langs text source_lang target_lang max_length st
  = (Ok None, st).
Proof.
  unfold ModelManager.translate.
  destruct (negb _ || negb _); [reflexivity|].
  destruct (negb (dict_contains langs source_lang)); [reflexivity|].
  destruct (negb (dict_contains langs target_lang)); [reflexivity|].
  discriminate.
Qed.

(** [ModelManager.batch_translate] never raises and returns one entry per
    text, in the order of the texts: entry [i] is what
    [ModelManager.translate] (with [max_length] 256) answers for text [i] in
    the state the texts before it left.  Without a model or a tokenizer, or
    with a code that is not in the table, every entry is [None] and nothing
    was done. *)
Theorem manager_batch_translate_result
    self langs texts source_lang target_lang (st : state) :
  exists results st',
    ModelManager.batch_translate self langs texts source_lang target_lang st
    = (Ok results, st')
    /\ length results = length texts
    /\ ModelManager.batch_run self langs source_lang target_lang
         texts st results st'
    /\ (negb (ModelManager.model self) || negb (ModelManager.tokenizer self)
        || negb (dict_contains langs source_lang)
        || negb (dict_contains langs target_lang) = true ->
        results = map (fun _ => None) texts /\ st' = st).
Proof.
  revert st. induction texts as [|text rest IH]; intros st.
  - exists [], st. repeat split. constructor.
  - cbn [ModelManager.batch_translate]. unfold bind at 1.
    destruct (manager_translate_returns self langs text source_lang
                target_lang 256 st) as (first & st1 & Hfirst).
    rewrite Hfirst. unfold bind at 1.
    destruct (IH st1) as (others & st2 & Hrest & Hlen & Hrun & Hnone).
    rewrite Hrest. exists (first :: others), st2.
    split; [reflexivity|]. split; [simpl; congruence|].
    split; [econstructor; eassumption|].
    intros Hrefuse.
    rewrite (manager_translate_refuses _ _ _ _ _ _ _ Hrefuse) in Hfirst.
    injection Hfirst as <- <-.
    destruct (Hnone Hrefuse) as [-> ->]. auto.
Qed.

End ManagerBatchFacts.
